(** * Reading compatibility analyzer: a shallow embedding

    The program under study is [batch_compatibility_analyzer.py].  Its
    class [ReadingCompatibilityAnalyzer] normalises book titles and
    authors, builds status-based title and author sets for two reading
    lists, scores their overlap, writes a textual diagnosis and finally
    sorts the collected pair results.

    Conventions of the embedding.
    - Text is [string]; every character is a code point below 256.  The
      character classes are those of Python's [str.lower], [\w], [\s] and
      [str.split] on that range.
    - A missing cell of a data frame ([pd.isna]) is [None].
    - Python sets of strings are [gset string].
    - Numbers are kept behind the interface [Number]; it is instantiated
      with binary64 floats (what the interpreter computes) and with the
      real numbers (exact arithmetic). *)

From Stdlib Require Import ZArith NArith String Ascii List Bool Lia.
From Stdlib Require Import DecimalString Floats Uint63 Reals Lra.
From stdpp Require Import base gmap sets list strings sorting.

Local Open Scope string_scope.
Local Open Scope list_scope.

(* ===================================================================== *)
(** * Characters *)

Definition code (c : ascii) : N := N_of_ascii c.

Definition in_range (lo hi : N) (c : ascii) : bool :=
  ((lo <=? code c) && (code c <=? hi))%N.

(** [str.isspace], which is also the class [\s] and the separator set of
    [str.split()]. *)
Definition is_space (c : ascii) : bool :=
  in_range 9 13 c || in_range 28 32 c || in_range 133 133 c
  || in_range 160 160 c.

(** [str.isalnum]: letters and digits. *)
Definition is_alnum (c : ascii) : bool :=
  in_range 48 57 c || in_range 65 90 c || in_range 97 122 c
  || in_range 170 170 c || in_range 178 179 c || in_range 181 181 c
  || in_range 185 186 c || in_range 188 190 c || in_range 192 214 c
  || in_range 216 246 c || in_range 248 255 c.

(** The regular-expression class [\w]: alphanumerics and the underscore. *)
Definition is_word (c : ascii) : bool :=
  is_alnum c || in_range 95 95 c.

(** One character of [str.lower]. *)
Definition lower_char (c : ascii) : ascii :=
  if in_range 65 90 c || in_range 192 214 c || in_range 216 222 c
  then ascii_of_N (code c + 32)
  else c.

(* ===================================================================== *)
(** * String primitives *)

Fixpoint smap (f : ascii -> ascii) (s : string) : string :=
  match s with
  | EmptyString => EmptyString
  | String c s' => String (f c) (smap f s')
  end.

Fixpoint sfilter (p : ascii -> bool) (s : string) : string :=
  match s with
  | EmptyString => EmptyString
  | String c s' => if p c then String c (sfilter p s') else sfilter p s'
  end.

Fixpoint sforall (p : ascii -> bool) (s : string) : bool :=
  match s with
  | EmptyString => true
  | String c s' => p c && sforall p s'
  end.

(** [s.lower()] *)
Definition lower (s : string) : string := smap lower_char s.

(** [re.sub(r'[^\w\s]', '', s)] *)
Definition keep_char (c : ascii) : bool := is_word c || is_space c.
Definition re_sub_non_word_space (s : string) : string := sfilter keep_char s.

Definition cons_word (w : string) (ws : list string) : list string :=
  match w with
  | EmptyString => ws
  | _ => w :: ws
  end.

(** Scanning for [s.split()]: the word that touches the start of [s] (empty
    if [s] starts with a separator) and the words after it. *)
Fixpoint split_scan (s : string) : string * list string :=
  match s with
  | EmptyString => (EmptyString, [])
  | String c s' =>
      let '(w, ws) := split_scan s' in
      if is_space c then (EmptyString, cons_word w ws)
      else (String c w, ws)
  end.

(** [s.split()]: maximal runs of non-separator characters. *)
Definition split (s : string) : list string :=
  let '(w, ws) := split_scan s in cons_word w ws.

(** [sep.join(ws)] *)
Fixpoint join (sep : string) (ws : list string) : string :=
  match ws with
  | [] => EmptyString
  | [w] => w
  | w :: ws' => w +:+ sep +:+ join sep ws'
  end.

Fixpoint lstrip (s : string) : string :=
  match s with
  | EmptyString => EmptyString
  | String c s' => if is_space c then lstrip s' else s
  end.

Fixpoint rstrip (s : string) : string :=
  match s with
  | EmptyString => EmptyString
  | String c s' =>
      match rstrip s' with
      | EmptyString => if is_space c then EmptyString else String c EmptyString
      | r => String c r
      end
  end.

(** A word of [split]: not empty, no separator in it. *)
Definition word_ok (w : string) : Prop :=
  w <> EmptyString /\ sforall (fun c => negb (is_space c)) w = true.

(** [s.strip()] *)
Definition strip (s : string) : string := rstrip (lstrip s).

(** [s.split('+')[0]]: everything before the first [+]. *)
Fixpoint before_plus (s : string) : string :=
  match s with
  | EmptyString => EmptyString
  | String c s' => if Ascii.eqb c "+" then EmptyString else String c (before_plus s')
  end.

(* ===================================================================== *)
(** * Normalizer *)

(** [normalize_title(self, title)] *)
Definition normalize_title (title : option string) : string :=
  match title with
  | None => ""
  | Some t =>
      let title := re_sub_non_word_space (lower t) in
      join " " (split title)
  end.

(** [get_primary_author(self, author_str)] *)
Definition get_primary_author (author_str : option string) : string :=
  match author_str with
  | None => ""
  | Some a => lower (strip (before_plus a))
  end.

(** A character that [normalize_title] leaves as it is. *)
Definition settled (c : ascii) : bool :=
  keep_char c && Ascii.eqb (lower_char c) c.

(** ** The normalizer in the words of its description *)

(** Collapse every run of whitespace to one space; [in_run] tells whether
    the previous character was whitespace. *)
Fixpoint collapse_from (in_run : bool) (s : string) : string :=
  match s with
  | EmptyString => EmptyString
  | String c s' =>
      if is_space c
      then if in_run then collapse_from true s'
           else String " " (collapse_from true s')
      else String c (collapse_from false s')
  end.

Definition collapse_ws (s : string) : string := collapse_from false s.

Definition trim (s : string) : string := rstrip (lstrip s).

(** Lower-case, keep the characters satisfying [keep], collapse runs of
    whitespace, trim. *)
Definition described_normalize (keep : ascii -> bool) (s : string) : string :=
  trim (collapse_ws (sfilter keep (lower s))).

(** "every character that is not a letter, a digit, or whitespace" *)
Definition letter_digit_space (c : ascii) : bool := is_alnum c || is_space c.

(* ===================================================================== *)
(** * Data model *)

(** One row of a reading list: the columns [Title], [Author] and [Status] of
    the data frame.  [None] is a missing cell. *)
Record BookRecord : Type := mkBook {
  Title : option string;
  Author : option string;
  Status : option string
}.

Definition DataFrame : Type := list BookRecord.

(** [row['Status'] == value]; a missing status equals no value. *)
Definition status_eq (value : string) (r : BookRecord) : bool :=
  match Status r with
  | Some s => String.eqb s value
  | None => false
  end.

(** [row['Status'].isin(values)] *)
Definition status_isin (values : list string) (r : BookRecord) : bool :=
  existsb (fun v => status_eq v r) values.

(** [df[df['Status'] != 'deleted']] *)
Definition drop_deleted (df : DataFrame) : DataFrame :=
  List.filter (fun r => negb (status_eq "deleted" r)) df.

(** The derived columns [normalized_title] and [primary_author]. *)
Definition normalized_title (r : BookRecord) : string := normalize_title (Title r).
Definition primary_author (r : BookRecord) : string := get_primary_author (Author r).

(** [set(df[mask][column])] *)
Definition column_set (column : BookRecord -> string) (mask : BookRecord -> bool)
    (df : DataFrame) : gset string :=
  list_to_set (map column (List.filter mask df)).

Definition every_row (r : BookRecord) : bool := true.
Definition is_finished : BookRecord -> bool := status_isin ["finished"; "currently_reading"].
Definition is_want_to_read : BookRecord -> bool := status_eq "want_to_read".
Definition is_did_not_finish : BookRecord -> bool := status_eq "did_not_finish".

(** The dictionaries [books1], [books2]. *)
Record Books : Type := mkBooks {
  finished : gset string;
  want_to_read : gset string;
  did_not_finish : gset string;
  all : gset string
}.

(** The dictionaries [authors1], [authors2]. *)
Record Authors : Type := mkAuthors {
  authors_finished : gset string;
  authors_all : gset string
}.

(** The status-based sets of a frame whose deleted rows are gone. *)
Definition books_of (df : DataFrame) : Books :=
  {| finished := column_set normalized_title is_finished df;
     want_to_read := column_set normalized_title is_want_to_read df;
     did_not_finish := column_set normalized_title is_did_not_finish df;
     all := column_set normalized_title every_row df |}.

Definition authors_of (df : DataFrame) : Authors :=
  {| authors_finished := column_set primary_author is_finished df ∖ {[ "" ]};
     authors_all := column_set primary_author every_row df ∖ {[ "" ]} |}.

(** The status values with a meaning to the analyzer. *)
Definition recognized_statuses : list string :=
  ["finished"; "currently_reading"; "want_to_read"; "did_not_finish"; "deleted"].

Definition recognized (r : BookRecord) : bool := status_isin recognized_statuses r.

(* ===================================================================== *)
(** * Numbers *)

(** What the analyzer asks of its numbers: conversion from [int], decimal
    literals, the four operations, negation, [abs], [np.sqrt], the
    comparisons [<] and [<=], [round(x, ndigits)] and the format [.1f]. *)
Class Number (F : Type) : Type := {
  of_int : Z -> F;
  (** [decimal m k] is the literal with digits [m] and [k] decimals. *)
  decimal : Z -> nat -> F;
  num_add : F -> F -> F;
  num_sub : F -> F -> F;
  num_mul : F -> F -> F;
  num_div : F -> F -> F;
  num_neg : F -> F;
  num_abs : F -> F;
  num_sqrt : F -> F;
  num_ltb : F -> F -> bool;
  num_leb : F -> F -> bool;
  num_round : nat -> F -> F;
  format_1f : F -> string
}.

Declare Scope num_scope.
Delimit Scope num_scope with num.
Infix "+" := num_add : num_scope.
Infix "-" := num_sub : num_scope.
Infix "*" := num_mul : num_scope.
Infix "/" := num_div : num_scope.
Notation "- x" := (num_neg x) : num_scope.
Infix "<?" := num_ltb : num_scope.
Infix "<=?" := num_leb : num_scope.

(** [str(n)] of a non-negative [int]. *)
Definition nat_str (n : nat) : string := NilZero.string_of_uint (Nat.to_uint n).

(** The nearest integer to [num / den], ties to the even one
    ([0 <= num], [0 < den]). *)
Definition nearest_even (num den : Z) : Z :=
  let q := (num / den)%Z in
  let r := (num mod den)%Z in
  match (2 * r ?= den)%Z with
  | Lt => q
  | Gt => (q + 1)%Z
  | Eq => if Z.even q then q else (q + 1)%Z
  end.

(** One decimal, from the sign and the number of tenths. *)
Definition format_tenths (negative : bool) (tenths : Z) : string :=
  (if negative then "-" else "")
  +:+ nat_str (Z.to_nat (tenths / 10)) +:+ "." +:+ nat_str (Z.to_nat (tenths mod 10)).

Section Engine.
Context {F : Type} {num : Number F}.
Local Open Scope num_scope.

Definition of_nat (n : nat) : F := of_int (Z.of_nat n).

(** [min(a, b)]: the first argument unless the second is smaller. *)
Definition py_min (a b : F) : F := if b <? a then b else a.

(** [a >= b] *)
Definition num_geb (a b : F) : bool := b <=? a.

(** [sum(values)]: left to right from [0]. *)
Definition py_sum (values : list F) : F := fold_left num_add values (of_int 0).

(** The dictionary [scores], and [score_breakdown]. *)
Record Scores : Type := mkScores {
  shared_finished : F;
  shared_authors : F;
  cross_recommendations : F;
  shared_tbr : F;
  reading_behavior : F;
  disagreement_penalty : F
}.

(** [scores.values()], in insertion order. *)
Definition score_values (s : Scores) : list F :=
  [shared_finished s; shared_authors s; cross_recommendations s;
   shared_tbr s; reading_behavior s; disagreement_penalty s].

(** The dictionary [metrics]. *)
Record Metrics : Type := mkMetrics {
  person1_books_finished : nat;
  person2_books_finished : nat;
  shared_books_finished : nat;
  metric_shared_authors : nat;
  metric_cross_recommendations : nat;
  metric_shared_tbr : nat;
  disagreements : nat
}.

(** The dictionary returned by [calculate_compatibility].  The sample lists
    [top_shared_books], [top_shared_authors] and [shared_tbr_sample] follow
    the iteration order of a hashed set and are left out. *)
Record PairResult : Type := mkPairResult {
  person1 : string;
  person2 : string;
  compatibility_score : F;
  metrics : Metrics;
  diagnosis : string;
  score_breakdown : Scores
}.

(* --------------------------------------------------------------------- *)
(** ** Diagnosis *)

Inductive Level : Type := EXCELLENT | GOOD | MODERATE | LOW | MINIMAL.

Definition level_of (score : F) : Level :=
  if num_geb score (decimal 70 2) then EXCELLENT
  else if num_geb score (decimal 50 2) then GOOD
  else if num_geb score (decimal 30 2) then MODERATE
  else if num_geb score (decimal 15 2) then LOW
  else MINIMAL.

Definition level_name (l : Level) : string :=
  match l with
  | EXCELLENT => "EXCELLENT" | GOOD => "GOOD" | MODERATE => "MODERATE"
  | LOW => "LOW" | MINIMAL => "MINIMAL"
  end.

(** The glyph of a level, as the bytes of its UTF-8 encoding. *)
Definition level_emoji (l : Level) : string :=
  match l with
  | EXCELLENT => "🌟" | GOOD => "😊" | MODERATE => "👍"
  | LOW => "🤔" | MINIMAL => "😅"
  end.

Definition overlap_clause (shared_finished : nat) : string :=
  if (10 <? shared_finished)%nat
  then "Strong overlap with " +:+ nat_str shared_finished +:+ " shared books."
  else if (5 <? shared_finished)%nat
  then "Decent overlap with " +:+ nat_str shared_finished +:+ " shared books."
  else if (2 <? shared_finished)%nat
  then "Some overlap with " +:+ nat_str shared_finished +:+ " shared books."
  else "Limited overlap with only " +:+ nat_str shared_finished +:+ " shared books.".

Definition size_clause (p1_finished p2_finished : nat) : list string :=
  let size_diff := Z.abs (Z.of_nat p1_finished - Z.of_nat p2_finished) in
  let size_balanced := (size_diff <? 20)%Z in
  if negb size_balanced then
    if (p2_finished * 2 <? p1_finished)%nat
    then ["Large library size difference - first reader is much more prolific."]
    else if (p1_finished * 2 <? p2_finished)%nat
    then ["Large library size difference - second reader is much more prolific."]
    else []
  else [].

Definition recommendation_clause (cross_recs : nat) : list string :=
  if (20 <? cross_recs)%nat
  then ["Excellent recommendation potential (" +:+ nat_str cross_recs +:+ " books to share)."]
  else if (10 <? cross_recs)%nat
  then ["Good recommendation potential (" +:+ nat_str cross_recs +:+ " books to share)."]
  else if (5 <? cross_recs)%nat
  then ["Some recommendation potential (" +:+ nat_str cross_recs +:+ " books to share)."]
  else [].

Definition disagreement_clause (disagreements : nat) : list string :=
  if (5 <? disagreements)%nat
  then ["Notable taste differences (" +:+ nat_str disagreements +:+ " disagreements)."]
  else if (0 <? disagreements)%nat
  then ["Minor taste differences (" +:+ nat_str disagreements +:+ " disagreements)."]
  else [].

Definition author_clause (shared_authors : nat) : list string :=
  if (5 <? shared_authors)%nat
  then ["Very strong author overlap (" +:+ nat_str shared_authors +:+ " shared)."]
  else if (2 <? shared_authors)%nat
  then ["Good author overlap (" +:+ nat_str shared_authors +:+ " shared)."]
  else [].

(** The list [diagnosis_parts], in the order of the [append] calls.  The
    values [total_unique_finished] and [overlap_pct] of the source are
    computed and never read; they are not carried over. *)
Definition diagnosis_parts (score : F)
    (p1_finished p2_finished shared_finished shared_authors cross_recs
       disagreements : nat) : list string :=
  let level := level_of score in
  [level_emoji level +:+ " " +:+ level_name level +:+ " COMPATIBILITY ("
     +:+ format_1f (score * of_int 100) +:+ "%)"]
  ++ [overlap_clause shared_finished]
  ++ size_clause p1_finished p2_finished
  ++ recommendation_clause cross_recs
  ++ disagreement_clause disagreements
  ++ author_clause shared_authors.

(** [generate_diagnosis(self, score, p1_finished, ...)] *)
Definition generate_diagnosis (score : F)
    (p1_finished p2_finished shared_finished shared_authors cross_recs
       disagreements : nat) : string :=
  join " " (diagnosis_parts score p1_finished p2_finished shared_finished
              shared_authors cross_recs disagreements).

(* --------------------------------------------------------------------- *)
(** ** Scores *)

(** The six entries of [scores], from the category sets. *)
Definition compute_scores (books1 books2 : Books) (authors1 authors2 : Authors)
    : Scores :=
  let shared_finished_titles := finished books1 ∩ finished books2 in
  let shared_tbr_titles := want_to_read books1 ∩ want_to_read books2 in
  let p1_read_p2_wants := finished books1 ∩ want_to_read books2 in
  let p2_read_p1_wants := finished books2 ∩ want_to_read books1 in
  let p1_finished_p2_dnf := finished books1 ∩ did_not_finish books2 in
  let p2_finished_p1_dnf := finished books2 ∩ did_not_finish books1 in
  let shared_authors_all := authors_all authors1 ∩ authors_all authors2 in
  (* 1. Shared finished books (35%) *)
  let s_shared_finished :=
    if (0 <? size (finished books1) + size (finished books2))%nat then
      let smaller := Nat.min (size (finished books1)) (size (finished books2)) in
      let shared_finished_score :=
        if (0 <? smaller)%nat
        then of_nat (size shared_finished_titles) / of_nat smaller
        else of_int 0 in
      py_min (decimal 10 1) shared_finished_score * decimal 35 2
    else of_int 0 in
  (* 2. Shared authors (30%) *)
  let s_shared_authors :=
    if (0 <? size (authors_all authors1) + size (authors_all authors2))%nat then
      let author_jaccard :=
        of_nat (size shared_authors_all)
        / of_nat (size (authors_all authors1 ∪ authors_all authors2)) in
      num_sqrt author_jaccard * decimal 30 2
    else of_int 0 in
  (* 3. Cross-recommendations (10%) *)
  let total_possible := (size (finished books1) + size (finished books2))%nat in
  let s_cross_recommendations :=
    if (0 <? total_possible)%nat then
      let cross_rec_score :=
        of_nat (size p1_read_p2_wants + size p2_read_p1_wants)
        / (of_nat total_possible * decimal 1 1) in
      py_min (decimal 10 1) cross_rec_score * decimal 10 2
    else of_int 0 in
  (* 4. Shared TBR (20%) *)
  let s_shared_tbr :=
    if (0 <? size (want_to_read books1) + size (want_to_read books2))%nat then
      let tbr_jaccard :=
        of_nat (size shared_tbr_titles)
        / of_nat (size (want_to_read books1 ∪ want_to_read books2)) in
      tbr_jaccard * decimal 20 2
    else of_int 0 in
  (* 5. Reading behavior (5%) *)
  let p1_finish_rate :=
    if (0 <? size (all books1))%nat
    then of_nat (size (finished books1)) / of_nat (size (all books1))
    else of_int 0 in
  let p2_finish_rate :=
    if (0 <? size (all books2))%nat
    then of_nat (size (finished books2)) / of_nat (size (all books2))
    else of_int 0 in
  let finish_rate_similarity :=
    of_int 1 - num_abs (p1_finish_rate - p2_finish_rate) in
  let size_ratio :=
    if (0 <? Nat.max (size (all books1)) (size (all books2)))%nat
    then of_nat (Nat.min (size (all books1)) (size (all books2)))
         / of_nat (Nat.max (size (all books1)) (size (all books2)))
    else of_int 0 in
  let s_reading_behavior :=
    (finish_rate_similarity * decimal 7 1 + size_ratio * decimal 3 1)
    * decimal 5 2 in
  (* 6. Disagreement penalty *)
  let n_disagreements := (size p1_finished_p2_dnf + size p2_finished_p1_dnf)%nat in
  let s_disagreement_penalty :=
    - py_min (decimal 15 2) (of_nat n_disagreements * decimal 2 2) in
  {| shared_finished := s_shared_finished;
     shared_authors := s_shared_authors;
     cross_recommendations := s_cross_recommendations;
     shared_tbr := s_shared_tbr;
     reading_behavior := s_reading_behavior;
     disagreement_penalty := s_disagreement_penalty |}.

(** The dictionary [metrics], from the category sets. *)
Definition compute_metrics (books1 books2 : Books) (authors1 authors2 : Authors)
    : Metrics :=
  {| person1_books_finished := size (finished books1);
     person2_books_finished := size (finished books2);
     shared_books_finished := size (finished books1 ∩ finished books2);
     metric_shared_authors :=
       size (authors_finished authors1 ∩ authors_finished authors2);
     metric_cross_recommendations :=
       size (finished books1 ∩ want_to_read books2)
       + size (finished books2 ∩ want_to_read books1);
     metric_shared_tbr := size (want_to_read books1 ∩ want_to_read books2);
     disagreements :=
       size (finished books1 ∩ did_not_finish books2)
       + size (finished books2 ∩ did_not_finish books1) |}.

(** [total_score = sum(scores.values())] *)
Definition total_score (s : Scores) : F := py_sum (score_values s).

Definition round_scores (s : Scores) : Scores :=
  {| shared_finished := num_round 3 (shared_finished s);
     shared_authors := num_round 3 (shared_authors s);
     cross_recommendations := num_round 3 (cross_recommendations s);
     shared_tbr := num_round 3 (shared_tbr s);
     reading_behavior := num_round 3 (reading_behavior s);
     disagreement_penalty := num_round 3 (disagreement_penalty s) |}.

(** [calculate_compatibility(self, person1_name, person1_df, person2_name,
    person2_df)] *)
Definition calculate_compatibility (person1_name : string) (person1_df : DataFrame)
    (person2_name : string) (person2_df : DataFrame) : PairResult :=
  (* Filter out deleted entries *)
  let df1 := drop_deleted person1_df in
  let df2 := drop_deleted person2_df in
  (* Create status-based sets *)
  let books1 := books_of df1 in
  let books2 := books_of df2 in
  let authors1 := authors_of df1 in
  let authors2 := authors_of df2 in
  (* Calculate scores *)
  let scores := compute_scores books1 books2 authors1 authors2 in
  let total := total_score scores in
  let m := compute_metrics books1 books2 authors1 authors2 in
  (* Generate diagnosis *)
  let diagnosis :=
    generate_diagnosis total
      (person1_books_finished m) (person2_books_finished m)
      (shared_books_finished m) (metric_shared_authors m)
      (metric_cross_recommendations m) (disagreements m) in
  {| person1 := person1_name;
     person2 := person2_name;
     compatibility_score := num_round 1 (total * of_int 100);
     metrics := m;
     diagnosis := diagnosis;
     score_breakdown := round_scores scores |}.

(** The dictionary [scores] that [calculate_compatibility] builds from two
    frames, before rounding. *)
Definition scores_of_frames (person1_df person2_df : DataFrame) : Scores :=
  compute_scores (books_of (drop_deleted person1_df))
                 (books_of (drop_deleted person2_df))
                 (authors_of (drop_deleted person1_df))
                 (authors_of (drop_deleted person2_df)).

End Engine.

Arguments Scores F : clear implicits.
Arguments PairResult F : clear implicits.

(* ===================================================================== *)
(** * Binary64 numbers

    Python's [float].  Integers enter through [of_uint63], exact below
    [2^53]; a decimal literal is the correctly rounded quotient of its
    digits by the power of ten, which is the double nearest to it. *)

Definition float_of_Z (z : Z) : float :=
  match z with
  | Z0 => PrimFloat.zero
  | Zpos _ => PrimFloat.of_uint63 (Uint63.of_Z z)
  | Zneg p => PrimFloat.opp (PrimFloat.of_uint63 (Uint63.of_Z (Zpos p)))
  end.

(** The nearest integer, ties to even, to [m * 2^e * 10^digits]. *)
Definition scaled_round (m : positive) (e : Z) (digits : nat) : Z :=
  if (0 <=? e)%Z then (Zpos m * 2 ^ e * 10 ^ Z.of_nat digits)%Z
  else nearest_even (Zpos m * 10 ^ Z.of_nat digits) (2 ^ (- e)).

(** [round(x, digits)]: the decimal with [digits] places nearest to the
    exact value of [x], then the double nearest to that decimal. *)
Definition float_round (digits : nat) (x : float) : float :=
  match Prim2SF x with
  | S754_finite s m e =>
      let r := PrimFloat.div (float_of_Z (scaled_round m e digits))
                             (float_of_Z (10 ^ Z.of_nat digits)) in
      if s then PrimFloat.opp r else r
  | _ => x
  end.

(** [format(x, '.1f')] *)
Definition float_format_1f (x : float) : string :=
  match Prim2SF x with
  | S754_zero s => format_tenths s 0
  | S754_finite s m e => format_tenths s (scaled_round m e 1)
  | S754_infinity s => if s then "-inf" else "inf"
  | S754_nan => "nan"
  end.

#[export] Instance float_number : Number float := {|
  of_int := float_of_Z;
  decimal := fun m k => PrimFloat.div (float_of_Z m) (float_of_Z (10 ^ Z.of_nat k));
  num_add := PrimFloat.add;
  num_sub := PrimFloat.sub;
  num_mul := PrimFloat.mul;
  num_div := PrimFloat.div;
  num_neg := PrimFloat.opp;
  num_abs := PrimFloat.abs;
  num_sqrt := PrimFloat.sqrt;
  num_ltb := PrimFloat.ltb;
  num_leb := PrimFloat.leb;
  num_round := float_round;
  format_1f := float_format_1f
|}.

(** [needle in text] *)
Definition contains (text needle : string) : Prop :=
  exists before after, text = before +:+ needle +:+ after.

(** Not a NaN. *)
Definition is_number (x : float) : Prop := PrimFloat.is_nan x = false.

(** [a == b] on floats. *)
Definition float_eq (a b : float) : Prop := PrimFloat.eqb a b = true.

(** A reading list of [n] books, all with the same status and no author. *)
Definition shelf (status : string) (n : nat) : DataFrame :=
  map (fun k => mkBook (Some ("book " +:+ nat_str k)) None (Some status))
      (seq 0 n).

Definition five_finished : DataFrame := shelf "finished" 5.

(** One title both finished and wanted, with an author. *)
Definition full_overlap : DataFrame :=
  [mkBook (Some "Dune") (Some "Frank Herbert") (Some "finished");
   mkBook (Some "dune") None (Some "want_to_read")].

(** The number of disagreements in the words of the scoring rules. *)
Definition described_disagreements (books1 books2 : Books) : nat :=
  size (finished books1 ∩ did_not_finish books2)
  + size (finished books2 ∩ did_not_finish books1).

(* ===================================================================== *)
(** * Exact numbers

    The same operations on the real numbers: no rounding in the arithmetic,
    the reading under which the weights and intervals of the scoring rules
    are stated. *)

Definition R_ltb (a b : R) : bool := if Rlt_dec a b then true else false.
Definition R_leb (a b : R) : bool := if Rle_dec a b then true else false.

(** The nearest integer to [y], ties to the even one. *)
Definition R_nearest_even (y : R) : Z :=
  let f := Int_part y in
  let r := (y - IZR f)%R in
  if Rlt_dec r (1 / 2) then f
  else if Rlt_dec (1 / 2) r then (f + 1)%Z
  else if Z.even f then f else (f + 1)%Z.

Definition R_round (digits : nat) (x : R) : R :=
  (IZR (R_nearest_even (x * IZR (10 ^ Z.of_nat digits)))
   / IZR (10 ^ Z.of_nat digits))%R.

Definition R_eqb (a b : R) : bool := if Req_dec_T a b then true else false.

Definition R_format_1f (x : R) : string :=
  format_tenths (R_ltb x 0) (R_nearest_even (Rabs x * 10)).

#[export] Instance real_number : Number R := {|
  of_int := IZR;
  decimal := fun m k => (IZR m / IZR (10 ^ Z.of_nat k))%R;
  num_add := Rplus;
  num_sub := Rminus;
  num_mul := Rmult;
  num_div := Rdiv;
  num_neg := Ropp;
  num_abs := Rabs;
  num_sqrt := R_sqrt.sqrt;
  num_ltb := R_ltb;
  num_leb := R_leb;
  num_round := R_round;
  format_1f := R_format_1f
|}.

(* ===================================================================== *)
(** * Sorting the results *)

Section Sorting.
Context {A K : Type} (key : A -> K) (lt : K -> K -> bool).

(** Insert [x] in front of the first element whose key is not smaller. *)
Fixpoint insert_by (x : A) (l : list A) : list A :=
  match l with
  | [] => [x]
  | y :: l' => if lt (key y) (key x) then y :: insert_by x l' else x :: l
  end.

(** A stable ascending sort that compares keys with [<] only. *)
Definition sort_by (l : list A) : list A := fold_right insert_by [] l.

(** Ascending: nothing is followed by a smaller key. *)
Definition ascending : list A -> Prop :=
  StronglySorted (fun a b => lt (key b) (key a) = false).

(** Descending: nothing is followed by a larger key. *)
Definition descending : list A -> Prop :=
  StronglySorted (fun a b => lt (key a) (key b) = false).

(** The elements whose key equals [k]. *)
Definition with_key (eqk : K -> K -> bool) (k : K) (a : A) : bool := eqk (key a) k.

(** [l.sort(key=key, reverse=reverse)].  The built-in sort is stable; with
    [reverse=True] it reverses the list, sorts it and reverses it again, so
    that equal keys keep their order. *)
Definition list_sort (reverse : bool) (l : list A) : list A :=
  if reverse then rev (sort_by (rev l)) else sort_by l.

End Sorting.

(** [save_results]: the list written under the key [results], that is
    [self.results] after
    [self.results.sort(key=lambda x: x['compatibility_score'], reverse=True)].
    The metadata and the file output are not part of the model. *)
Definition save_results {F : Type} {num : Number F}
    (results : list (PairResult F)) : list (PairResult F) :=
  list_sort compatibility_score num_ltb true results.


(* ===================================================================== *)
(** * Shapes of normalized text *)

(** No two adjacent whitespace characters. *)
Fixpoint no_double_space (s : string) : bool :=
  match s with
  | String a ((String b _) as s') =>
      negb (is_space a && is_space b) && no_double_space s'
  | _ => true
  end.

(** A character of a normalized title: the space, or a word character that
    [str.lower] leaves alone. *)
Definition title_char (c : ascii) : bool :=
  Ascii.eqb c " " || (is_word c && Ascii.eqb (lower_char c) c).

(** A character of a primary author: not [+], and left alone by
    [str.lower]. *)
Definition author_char (c : ascii) : bool :=
  negb (Ascii.eqb c "+") && Ascii.eqb (lower_char c) c.

(** No [+] in the text. *)
Definition no_plus (s : string) : bool := sforall (fun c => negb (Ascii.eqb c "+")) s.
(* ===================================================================== *)
(** * Counts of a shared author *)

(** [len(p_finished[p_finished['primary_author'] == author])], with
    [p_finished] the finished or currently-read rows of the frame. *)
Definition author_count (df : DataFrame) (author : string) : nat :=
  length (List.filter (fun r => String.eqb (primary_author r) author)
            (List.filter is_finished df)).

(** One entry of [shared_author_counts], without the display name (the
    title-cased author). *)
Record AuthorCounts : Type := mkAuthorCounts {
  person1_count : nat;
  person2_count : nat;
  total : nat
}.

(** The body of the loop over [shared_authors_finished]. *)
Definition shared_author_entry (df1 df2 : DataFrame) (author : string)
    : AuthorCounts :=
  let p1_count := author_count df1 author in
  let p2_count := author_count df2 author in
  {| person1_count := p1_count;
     person2_count := p2_count;
     total := p1_count + p2_count |}.

(** Two frames hold the same rows, whatever their order and multiplicity. *)
Definition same_rows (df df' : DataFrame) : Prop := forall r, In r df <-> In r df'.

(* ===================================================================== *)
(** * Summary table *)

(** The levels from the weakest to the strongest. *)
Definition level_rank (l : Level) : nat :=
  match l with
  | MINIMAL => 0 | LOW => 1 | MODERATE => 2 | GOOD => 3 | EXCELLENT => 4
  end.

(** [s.split('.')[0]]: everything before the first full stop. *)
Fixpoint before_dot (s : string) : string :=
  match s with
  | EmptyString => EmptyString
  | String c s' => if Ascii.eqb c "." then EmptyString else String c (before_dot s')
  end.

Definition no_dot (s : string) : bool := sforall (fun c => negb (Ascii.eqb c ".")) s.

(** One row of the summary: the columns [Person 1], [Person 2],
    [Compatibility %], [Shared Books], [Shared Authors], [Can Recommend]
    and [Diagnosis]. *)
Record SummaryRow (F : Type) : Type := mkSummaryRow {
  summary_person1 : string;
  summary_person2 : string;
  summary_compatibility : F;
  summary_shared_books : nat;
  summary_shared_authors : nat;
  summary_can_recommend : nat;
  summary_diagnosis : string
}.
Arguments mkSummaryRow {F}.
Arguments summary_person1 {F}.
Arguments summary_person2 {F}.
Arguments summary_compatibility {F}.
Arguments summary_shared_books {F}.
Arguments summary_shared_authors {F}.
Arguments summary_can_recommend {F}.
Arguments summary_diagnosis {F}.

(** The dictionary appended to [summary_data] for one result. *)
Definition summary_row {F : Type} (result : PairResult F) : SummaryRow F :=
  {| summary_person1 := person1 result;
     summary_person2 := person2 result;
     summary_compatibility := compatibility_score result;
     summary_shared_books := shared_books_finished (metrics result);
     summary_shared_authors := metric_shared_authors (metrics result);
     summary_can_recommend := metric_cross_recommendations (metrics result);
     summary_diagnosis := before_dot (diagnosis result) |}.

(** [save_summary_csv]: the rows of the table written to the summary file,
    one per result, in the order of [self.results].  Writing the file and
    printing the first ten rows are not part of the model. *)
Definition save_summary_csv {F : Type} (results : list (PairResult F))
    : list (SummaryRow F) :=
  map summary_row results.

(** The start of the diagnosis up to the decimal point of the percentage. *)
Definition diagnosis_stub (l : Level) (negative : bool) (tenths : Z) : string :=
  level_emoji l +:+ " " +:+ level_name l +:+ " COMPATIBILITY ("
  +:+ (if negative then "-" else "") +:+ nat_str (Z.to_nat (tenths / 10)).

(* ===================================================================== *)
(** * Batch processing *)

(** [s.replace(old, new)] for a non-empty [old]: the occurrences of [old]
    are found from left to right and do not overlap; [skip] counts the
    characters of a found occurrence still to be dropped. *)
Fixpoint replace_from (skip : nat) (old new s : string) : string :=
  match s with
  | EmptyString => EmptyString
  | String c s' =>
      match skip with
      | S k => replace_from k old new s'
      | O =>
          if String.prefix old s
          then new +:+ replace_from (String.length old - 1) old new s'
          else String c (replace_from 0 old new s')
      end
  end.

Definition str_replace (old new s : string) : string := replace_from 0 old new s.

(** The display name of a reading list, from the stem of its file name. *)
Definition person_name (stem : string) : string :=
  let name := strip (str_replace "_" " " (str_replace "Tracked_Books_-_" "" stem)) in
  if String.eqb name "" then stem else name.

(** What [pd.read_csv] makes of a file it can read.  The analyzer uses the
    columns [Title], [Author] and [Status] only: a table that has them is
    its rows, and a table that lacks one of them is [MissingColumn], on
    which [calculate_compatibility] raises [KeyError] when it indexes the
    column. *)
Inductive Table : Type :=
| Columns (rows : DataFrame)
| MissingColumn.

Definition has_columns (t : Table) : bool :=
  match t with
  | Columns _ => true
  | MissingColumn => false
  end.

Definition rows_of (t : Table) : DataFrame :=
  match t with
  | Columns rows => rows
  | MissingColumn => []
  end.

(** A file matched by [*.csv]: the stem of its name and what [pd.read_csv]
    gives, [None] when it raises. *)
Record CsvFile : Type := mkCsvFile {
  stem : string;
  frame : option Table
}.

(** [d[k] = v] on a dictionary kept in insertion order: a key already there
    keeps its place and gets the new value. *)
Fixpoint dict_set (d : list (string * Table)) (k : string) (v : Table)
    : list (string * Table) :=
  match d with
  | [] => [(k, v)]
  | (k', v') :: d' =>
      if String.eqb k' k then (k, v) :: d' else (k', v') :: dict_set d' k v
  end.

(** [d.get(k)] *)
Fixpoint dict_get (d : list (string * Table)) (k : string) : option Table :=
  match d with
  | [] => None
  | (k', v') :: d' => if String.eqb k' k then Some v' else dict_get d' k
  end.

(** The loop that fills [people_data]. *)
Definition load_file (people_data : list (string * Table)) (file : CsvFile)
    : list (string * Table) :=
  match frame file with
  | Some df => dict_set people_data (person_name (stem file)) df
  | None => people_data
  end.

Definition load_people (csv_files : list CsvFile) : list (string * Table) :=
  fold_left load_file csv_files [].

(** [itertools.combinations(l, 2)] *)
Fixpoint combinations2 {A : Type} (l : list A) : list (A * A) :=
  match l with
  | [] => []
  | x :: l' => map (pair x) l' ++ combinations2 l'
  end.

(** The call of [calculate_compatibility] inside the [try] of the loop
    over the pairs: [None] when it raises, which it does on its first lines
    when one of the two tables lacks a column. *)
Definition try_calculate_compatibility {F : Type} {num : Number F}
    (person1 : string) (df1 : Table) (person2 : string) (df2 : Table)
    : option (PairResult F) :=
  match df1, df2 with
  | Columns rows1, Columns rows2 =>
      Some (calculate_compatibility person1 rows1 person2 rows2)
  | _, _ => None
  end.

(** One turn of the loop over the pairs: the result is appended to
    [self.results], or the pair is skipped when scoring it raised. *)
Definition pair_step {F : Type} {num : Number F}
    (results : list (PairResult F))
    (pair : (string * Table) * (string * Table)) : list (PairResult F) :=
  let '((person1, df1), (person2, df2)) := pair in
  match try_calculate_compatibility person1 df1 person2 df2 with
  | Some result => results ++ [result]
  | None => results
  end.

(** The results appended by the loop over the pairs. *)
Definition pair_results {F : Type} {num : Number F}
    (people_data : list (string * Table)) : list (PairResult F) :=
  fold_left pair_step (combinations2 people_data) [].

(** [process_all_files]: from [self.results] and the files found, the value
    returned, which is also the new [self.results]; [None] is the bare
    [return] taken with fewer than two files, which leaves [self.results]
    alone. *)
Definition process_all_files {F : Type} {num : Number F}
    (self_results : list (PairResult F)) (csv_files : list CsvFile)
    : option (list (PairResult F)) :=
  if (length csv_files <? 2)%nat then None
  else Some (fold_left pair_step (combinations2 (load_people csv_files))
               self_results).

(** The script: what is written to the results file and to the summary
    file, [None] when [results] is empty or missing and nothing is written. *)
Definition main {F : Type} {num : Number F} (csv_files : list CsvFile)
    : option (list (PairResult F) * list (SummaryRow F)) :=
  match process_all_files [] csv_files with
  | Some (r :: rs) =>
      let sorted := save_results (r :: rs) in
      Some (sorted, save_summary_csv sorted)
  | _ => None
  end.

Definition keys (d : list (string * Table)) : list string := map fst d.

(** The entries of [people_data] that can be scored. *)
Definition scorable (people_data : list (string * Table))
    : list (string * Table) :=
  List.filter (fun entry => has_columns (snd entry)) people_data.

(** Scoring two entries of [people_data] that have their columns. *)
Definition score_entries {F : Type} {num : Number F}
    (pair : (string * Table) * (string * Table)) : PairResult F :=
  let '((person1, df1), (person2, df2)) := pair in
  calculate_compatibility person1 (rows_of df1) person2 (rows_of df2).

Definition no_underscore (s : string) : bool :=
  sforall (fun c => negb (Ascii.eqb c "_")) s.

(** The name before the fallback to the stem. *)
Definition derived_name (stem : string) : string :=
  strip (str_replace "_" " " (str_replace "Tracked_Books_-_" "" stem)).

(* ===================================================================== *)
(** * Theorems *)

Example normalize_title_ex1 :
  normalize_title (Some "  The  Hobbit: There & Back_Again! ") = "the hobbit there back_again".
Proof. reflexivity. Qed.

Example get_primary_author_ex1 :
  get_primary_author (Some " J.R.R. Tolkien + Alan Lee") = "j.r.r. tolkien".
Proof. reflexivity. Qed.

(* --------------------------------------------------------------------- *)
(** ** Splitting, joining and trimming *)

#[local] Arguments join : simpl never.

Lemma cons_word_nonempty w ws : w <> EmptyString -> cons_word w ws = w :: ws.
Proof. destruct w; [congruence | reflexivity]. Qed.

Lemma join_cons sep w v ws :
  join sep (w :: v :: ws) = w +:+ sep +:+ join sep (v :: ws).
Proof. reflexivity. Qed.

Lemma split_scan_words s :
  sforall (fun c => negb (is_space c)) (split_scan s).1 = true
  /\ Forall word_ok (split_scan s).2.
Proof.
  induction s as [|c s [IHw IHws]]; simpl.
  - split; [reflexivity | constructor].
  - destruct (split_scan s) as [w ws]; simpl in *.
    destruct (is_space c) eqn:Hc; simpl.
    + split; [reflexivity|].
      destruct w as [|d w]; simpl; [assumption|].
      constructor; [|assumption]. split; [congruence | assumption].
    + rewrite Hc. simpl. split; assumption.
Qed.

Lemma split_words s : Forall word_ok (split s).
Proof.
  unfold split. pose proof (split_scan_words s) as [Hw Hws].
  destruct (split_scan s) as [w ws]; simpl in *.
  destruct w as [|d w]; simpl; [assumption|].
  constructor; [|assumption]. split; [congruence | assumption].
Qed.

Lemma app_cons c (w r : string) : String c w +:+ r = String c (w +:+ r).
Proof. reflexivity. Qed.

Lemma app_empty (r : string) : "" +:+ r = r.
Proof. reflexivity. Qed.

Lemma join_nonempty w ws : w <> EmptyString -> join " " (w :: ws) <> EmptyString.
Proof.
  intros Hw. destruct w as [|c w]; [congruence|].
  destruct ws; [assumption|].
  rewrite join_cons, app_cons. congruence.
Qed.

Lemma join_words_nonempty ws :
  Forall word_ok ws -> join " " ws = EmptyString -> ws = [].
Proof.
  intros Hws Hj. destruct ws as [|w ws]; [reflexivity|].
  inversion Hws as [|? ? [Hw _] _]; subst.
  exfalso. exact (join_nonempty w ws Hw Hj).
Qed.

Lemma join_cons_char c w ws :
  join " " (String c w :: ws) = String c (match w with
                                          | EmptyString =>
                                              match ws with
                                              | [] => EmptyString
                                              | _ => " " +:+ join " " ws
                                              end
                                          | _ => join " " (w :: ws)
                                          end).
Proof.
  destruct ws as [|v ws].
  - destruct w; reflexivity.
  - rewrite join_cons, app_cons. destruct w as [|d w]; [reflexivity|].
    rewrite join_cons. reflexivity.
Qed.

(** Trimming on the right, seen through the scan of [split]. *)
Lemma rstrip_collapse s :
  rstrip (collapse_from true s) = join " " (split s)
  /\ rstrip (collapse_from false s) =
       match (split_scan s).1 with
       | EmptyString =>
           match (split_scan s).2 with
           | [] => EmptyString
           | ws => " " +:+ join " " ws
           end
       | w => join " " (w :: (split_scan s).2)
       end.
Proof.
  unfold split. induction s as [|c s [IHt IHf]]; [split; reflexivity|].
  pose proof (split_scan_words s) as [_ Hws].
  simpl. destruct (split_scan s) as [w ws] eqn:Hscan; simpl in *.
  destruct (is_space c) eqn:Hc; simpl.
  - split; [exact IHt|].
    rewrite IHt.
    assert (Hall : Forall word_ok (cons_word w ws)).
    { destruct w as [|d w]; simpl; [assumption|].
      pose proof (split_scan_words s) as [Hw _]. rewrite Hscan in Hw.
      constructor; [split; [congruence | exact Hw] | assumption]. }
    destruct (cons_word w ws) as [|v vs] eqn:Hcw; [reflexivity|].
    destruct (join " " (v :: vs)) eqn:Hj.
    + apply join_words_nonempty in Hj; [discriminate | assumption].
    + reflexivity.
  - assert (Hgoal : match rstrip (collapse_from false s) with
                    | EmptyString => String c EmptyString
                    | String a r => String c (String a r)
                    end = join " " (String c w :: ws)).
    { rewrite IHf, join_cons_char.
      destruct w as [|d w].
      - destruct ws as [|v vs]; [reflexivity|].
        rewrite app_cons. reflexivity.
      - destruct (join " " (String d w :: ws)) eqn:Hj; [|reflexivity].
        exfalso. eapply join_nonempty; [|exact Hj]. congruence. }
    rewrite Hc. split; exact Hgoal.
Qed.

Lemma lstrip_collapse_true s :
  lstrip (collapse_from true s) = collapse_from true s.
Proof.
  induction s as [|c s IH]; [reflexivity|].
  simpl. destruct (is_space c) eqn:Hc; [exact IH|].
  simpl. rewrite Hc. reflexivity.
Qed.

Lemma lstrip_collapse b s :
  lstrip (collapse_from b s) = collapse_from true s.
Proof.
  destruct b; [apply lstrip_collapse_true|].
  destruct s as [|c s]; [reflexivity|].
  simpl. destruct (is_space c) eqn:Hc.
  - simpl. apply lstrip_collapse_true.
  - simpl. rewrite Hc. reflexivity.
Qed.

(** [' '.join(s.split())] collapses the whitespace of [s] and trims it. *)
Lemma join_split_trim_collapse s :
  join " " (split s) = trim (collapse_ws s).
Proof.
  unfold trim, collapse_ws. rewrite lstrip_collapse.
  symmetry. apply rstrip_collapse.
Qed.

(* --------------------------------------------------------------------- *)
(** ** Idempotence of the normalizer *)

Lemma lower_char_settled c :
  keep_char (lower_char c) = true -> settled (lower_char c) = true.
Proof.
  destruct c as [[] [] [] [] [] [] [] []]; vm_compute; intros H; exact H.
Qed.

Lemma sforall_impl (p q : ascii -> bool) s :
  (forall c, p c = true -> q c = true) -> sforall p s = true -> sforall q s = true.
Proof.
  intros Hpq. induction s as [|c s IH]; simpl; [reflexivity|].
  intros [Hc Hs]%andb_true_iff. rewrite (Hpq _ Hc), (IH Hs). reflexivity.
Qed.

Lemma sforall_app p (s t : string) :
  sforall p (s +:+ t) = sforall p s && sforall p t.
Proof.
  induction s as [|c s IH]; [reflexivity|].
  rewrite app_cons. simpl. rewrite IH, andb_assoc. reflexivity.
Qed.

Lemma filtered_lower_settled s :
  sforall settled (re_sub_non_word_space (lower s)) = true.
Proof.
  unfold re_sub_non_word_space, lower.
  induction s as [|c s IH]; simpl; [reflexivity|].
  destruct (keep_char (lower_char c)) eqn:Hk; [|exact IH].
  simpl. rewrite (lower_char_settled c Hk). exact IH.
Qed.

Lemma split_scan_sforall p s :
  sforall p s = true ->
  sforall p (split_scan s).1 = true
  /\ Forall (fun w => sforall p w = true) (split_scan s).2.
Proof.
  induction s as [|c s IH]; simpl; [split; [reflexivity | constructor]|].
  intros [Hc Hs]%andb_true_iff. destruct (IH Hs) as [IHw IHws].
  destruct (split_scan s) as [w ws]; simpl in *.
  destruct (is_space c); simpl.
  - split; [reflexivity|]. destruct w; simpl; [assumption|].
    constructor; assumption.
  - rewrite Hc, IHw. split; [reflexivity | assumption].
Qed.

Lemma split_sforall p s :
  sforall p s = true -> Forall (fun w => sforall p w = true) (split s).
Proof.
  intros Hs. destruct (split_scan_sforall p s Hs) as [Hw Hws].
  unfold split. destruct (split_scan s) as [w ws]; simpl in *.
  destruct w; simpl; [assumption | constructor; assumption].
Qed.

Lemma join_sforall p ws :
  p " "%char = true ->
  Forall (fun w => sforall p w = true) ws -> sforall p (join " " ws) = true.
Proof.
  intros Hsp. induction 1 as [|w ws Hw Hws IH]; [reflexivity|].
  destruct ws as [|v ws]; [exact Hw|].
  rewrite join_cons, !sforall_app, Hw, IH. simpl. rewrite Hsp. reflexivity.
Qed.

Lemma settled_fixed s :
  sforall settled s = true -> re_sub_non_word_space (lower s) = s.
Proof.
  unfold re_sub_non_word_space, lower.
  induction s as [|c s IH]; simpl; [reflexivity|].
  intros [[Hk Hl%Ascii.eqb_eq]%andb_true_iff Hs]%andb_true_iff.
  rewrite Hl, Hk. f_equal. exact (IH Hs).
Qed.

Lemma split_scan_app_word w r :
  sforall (fun c => negb (is_space c)) w = true ->
  split_scan (w +:+ r) = (w +:+ (split_scan r).1, (split_scan r).2).
Proof.
  induction w as [|c w IH]; intros Hw.
  - rewrite !app_empty. destruct (split_scan r); reflexivity.
  - simpl in Hw. apply andb_true_iff in Hw as [Hc Hw].
    rewrite !app_cons. simpl. rewrite (IH Hw).
    apply negb_true_iff in Hc. rewrite Hc. reflexivity.
Qed.

Lemma app_empty_r (w : string) : w +:+ "" = w.
Proof. induction w as [|c w IH]; [reflexivity|]. rewrite app_cons, IH. reflexivity. Qed.

Lemma split_scan_join w ws :
  Forall word_ok (w :: ws) -> split_scan (join " " (w :: ws)) = (w, ws).
Proof.
  revert w. induction ws as [|v ws IH]; intros w Hall.
  - inversion Hall as [|? ? [_ Hw] _]; subst.
    change (join " " [w]) with w.
    rewrite <- (app_empty_r w) at 1. rewrite (split_scan_app_word w "" Hw).
    simpl. rewrite app_empty_r. reflexivity.
  - inversion Hall as [|? ? [_ Hw] Hrest]; subst.
    rewrite join_cons, (split_scan_app_word _ _ Hw).
    rewrite app_cons, app_empty. simpl. rewrite (IH v Hrest). simpl.
    rewrite app_empty_r. f_equal. apply cons_word_nonempty.
    inversion Hrest as [|? ? [Hv _] _]; assumption.
Qed.

Lemma split_join ws : Forall word_ok ws -> split (join " " ws) = ws.
Proof.
  intros Hall. destruct ws as [|w ws]; [reflexivity|].
  unfold split. rewrite (split_scan_join w ws Hall).
  apply cons_word_nonempty. inversion Hall as [|? ? [Hw _] _]; assumption.
Qed.

(* --------------------------------------------------------------------- *)
(** ** Properties of [normalize_title] *)

Lemma keep_char_classes c :
  keep_char c = letter_digit_space c || Ascii.eqb c "_".
Proof. destruct c as [[] [] [] [] [] [] [] []]; reflexivity. Qed.

(** C3, as stated, fails: the underscore is neither a letter, a digit nor
    whitespace, yet [normalize_title] keeps it. *)
Lemma normalize_title_keeps_underscore :
  normalize_title (Some "a_b") = "a_b"
  /\ described_normalize letter_digit_space "a_b" = "ab"
  /\ normalize_title (Some "a_b") <> described_normalize letter_digit_space "a_b".
Proof. split; [reflexivity|]. split; [reflexivity|]. discriminate. Qed.

(** C3 (amended): [normalize_title] returns the empty string on a missing or
    empty title; on any other text it lower-cases, removes every character
    that is not a word character (a letter, a digit or the underscore) nor
    whitespace, collapses runs of whitespace to single spaces and trims both
    ends. *)
Theorem normalize_title_described :
  normalize_title None = ""
  /\ normalize_title (Some "") = ""
  /\ (forall s, normalize_title (Some s) = described_normalize keep_char s)
  /\ (forall c, keep_char c = letter_digit_space c || Ascii.eqb c "_").
Proof.
  split; [reflexivity|]. split; [reflexivity|].
  split; [|exact keep_char_classes].
  intros s. unfold normalize_title, described_normalize.
  apply join_split_trim_collapse.
Qed.

(** C7: [normalize_title] is idempotent. *)
Theorem normalize_title_idempotent (x : option string) :
  normalize_title (Some (normalize_title x)) = normalize_title x.
Proof.
  destruct x as [s|]; [|reflexivity].
  unfold normalize_title.
  set (u := re_sub_non_word_space (lower s)).
  assert (Hu : sforall settled u = true) by apply filtered_lower_settled.
  assert (Ht : sforall settled (join " " (split u)) = true).
  { apply join_sforall; [reflexivity|]. apply split_sforall, Hu. }
  rewrite (settled_fixed _ Ht), (split_join _ (split_words u)).
  reflexivity.
Qed.

(* --------------------------------------------------------------------- *)
(** ** Category sets *)

Lemma elem_of_column_set column mask (df : DataFrame) (x : string) :
  x ∈ column_set column mask df
  <-> exists r, In r df /\ mask r = true /\ column r = x.
Proof.
  unfold column_set. rewrite elem_of_list_to_set, list_elem_of_In, in_map_iff.
  split.
  - intros (r & Hx & Hr). apply filter_In in Hr as [Hin Hm]. eauto.
  - intros (r & Hin & Hm & Hx). exists r. split; [exact Hx|].
    apply filter_In. auto.
Qed.

Lemma column_set_subseteq column (mask : BookRecord -> bool) (df : DataFrame) :
  column_set column mask df ⊆ column_set column every_row df.
Proof.
  intros x. rewrite !elem_of_column_set.
  intros (r & Hin & _ & Hx). exists r. auto.
Qed.

Lemma column_set_insert column mask (l1 l2 : DataFrame) (r : BookRecord) :
  column_set column mask (l1 ++ r :: l2) =
    (if mask r then {[ column r ]} else ∅) ∪ column_set column mask (l1 ++ l2).
Proof.
  apply set_eq. intros x. rewrite elem_of_union, !elem_of_column_set. split.
  - intros (q & Hin & Hm & Hx). apply in_app_iff in Hin as [Hin|[->|Hin]].
    + right. exists q. rewrite in_app_iff. auto.
    + left. rewrite Hm. set_solver.
    + right. exists q. rewrite in_app_iff. auto.
  - intros [Hx|(q & Hin & Hm & Hx)].
    + destruct (mask r) eqn:Hm; [|set_solver].
      exists r. rewrite in_app_iff. split; [right; left; reflexivity|].
      split; [exact Hm | set_solver].
    + exists q. split; [|auto].
      apply in_app_iff in Hin as [Hin|Hin]; apply in_app_iff; simpl; auto.
Qed.

Lemma drop_deleted_insert (l1 l2 : DataFrame) (r : BookRecord) :
  drop_deleted (l1 ++ r :: l2) =
    drop_deleted l1 ++ (if status_eq "deleted" r then [] else [r]) ++ drop_deleted l2.
Proof.
  unfold drop_deleted. rewrite List.filter_app. simpl.
  destruct (status_eq "deleted" r); reflexivity.
Qed.

Lemma drop_deleted_app (l1 l2 : DataFrame) :
  drop_deleted (l1 ++ l2) = drop_deleted l1 ++ drop_deleted l2.
Proof. apply List.filter_app. Qed.

Lemma unrecognized_masks (r : BookRecord) :
  recognized r = false ->
  is_finished r = false /\ is_want_to_read r = false
  /\ is_did_not_finish r = false /\ status_eq "deleted" r = false.
Proof.
  unfold recognized, is_finished, is_want_to_read, is_did_not_finish,
    status_isin, recognized_statuses. simpl.
  repeat (destruct (status_eq _ r)); simpl; intros H; try discriminate H; auto.
Qed.

(** C8, as stated, fails: a row with an unrecognized status does bring its
    author into [authors['all']]. *)
Lemma unrecognized_status_author_in_all :
  let r := mkBook (Some "Dune") (Some "Frank Herbert") (Some "paused") in
  recognized r = false
  /\ "frank herbert" ∈ authors_all (authors_of (drop_deleted [r]))
  /\ authors_all (authors_of (drop_deleted [r]))
       <> authors_all (authors_of (drop_deleted [])).
Proof.
  split; [reflexivity|].
  assert (Hin : "frank herbert" ∈ authors_all
            (authors_of (drop_deleted [mkBook (Some "Dune") (Some "Frank Herbert") (Some "paused")]))).
  { simpl. apply elem_of_difference. split.
    - apply elem_of_column_set. eexists. split; [left; reflexivity|].
      split; reflexivity.
    - rewrite elem_of_singleton. discriminate. }
  split; [exact Hin|]. intros Heq. rewrite Heq in Hin. simpl in Hin.
  apply elem_of_difference in Hin as [Hin _].
  apply elem_of_column_set in Hin as (q & [] & _).
Qed.

(** C8 (amended): a row whose status is not one of the recognized values
    adds nothing to the finished, want-to-read and did-not-finish title sets
    nor to the finished-author set; its normalized title is in the [all]
    title set and its primary author, unless empty, is in the [all] author
    set.  A row with status [deleted] changes no set.  The construction is a
    total function of the rows, whatever their status. *)
Theorem unrecognized_status_only_in_all (l1 l2 : DataFrame) (r : BookRecord) :
  let with_r := drop_deleted (l1 ++ r :: l2) in
  let without := drop_deleted (l1 ++ l2) in
  (recognized r = false ->
     finished (books_of with_r) = finished (books_of without)
     /\ want_to_read (books_of with_r) = want_to_read (books_of without)
     /\ did_not_finish (books_of with_r) = did_not_finish (books_of without)
     /\ authors_finished (authors_of with_r) = authors_finished (authors_of without)
     /\ normalized_title r ∈ all (books_of with_r)
     /\ all (books_of with_r) = {[ normalized_title r ]} ∪ all (books_of without)
     /\ authors_all (authors_of with_r) =
          ({[ primary_author r ]} ∖ {[ "" ]}) ∪ authors_all (authors_of without))
  /\ (status_eq "deleted" r = true ->
        books_of with_r = books_of without
        /\ authors_of with_r = authors_of without)
  /\ (forall status : option string,
        let rows := drop_deleted (l1 ++ mkBook (Title r) (Author r) status :: l2) in
        exists books authors, books_of rows = books /\ authors_of rows = authors).
Proof.
  intros with_r without. subst with_r without.
  split; [|split; [|intros status rows; eauto]];
    rewrite drop_deleted_insert, drop_deleted_app.
  - intros Hr. destruct (unrecognized_masks r Hr) as (Hf & Hw & Hd & Hdel).
    rewrite Hdel. simpl. rewrite !column_set_insert, Hf, Hw, Hd. simpl.
    rewrite !(left_id_L ∅ (∪)).
    repeat split; try reflexivity.
    + apply elem_of_union_l, elem_of_singleton. reflexivity.
    + apply difference_union_distr_l_L.
  - intros Hdel. rewrite Hdel. simpl. split; reflexivity.
Qed.

Lemma unrecognized_status_only_in_all_witness :
  let r := mkBook (Some "Dune") (Some "Frank Herbert") (Some "paused") in
  let d := mkBook (Some "Emma") (Some "Jane Austen") (Some "deleted") in
  let l := [mkBook (Some "Ulysses") None (Some "finished")] in
  finished (books_of (drop_deleted (l ++ r :: [])))
    = finished (books_of (drop_deleted (l ++ [])))
  /\ books_of (drop_deleted (l ++ d :: [])) = books_of (drop_deleted (l ++ [])).
Proof.
  intros r d l. split.
  - apply (unrecognized_status_only_in_all l [] r). reflexivity.
  - apply (unrecognized_status_only_in_all l [] d). reflexivity.
Defined.

(** C10: in both catalogs the finished, want-to-read and did-not-finish
    title sets are subsets of the [all] title set, and the finished-author
    set is a subset of the all-author set. *)
Theorem category_sets_contained (person1_df person2_df : DataFrame) :
  let df1 := drop_deleted person1_df in
  let df2 := drop_deleted person2_df in
  let books1 := books_of df1 in
  let books2 := books_of df2 in
  let authors1 := authors_of df1 in
  let authors2 := authors_of df2 in
  (finished books1 ⊆ all books1
   /\ want_to_read books1 ⊆ all books1
   /\ did_not_finish books1 ⊆ all books1
   /\ authors_finished authors1 ⊆ authors_all authors1)
  /\ (finished books2 ⊆ all books2
      /\ want_to_read books2 ⊆ all books2
      /\ did_not_finish books2 ⊆ all books2
      /\ authors_finished authors2 ⊆ authors_all authors2).
Proof.
  simpl. pose proof column_set_subseteq as H.
  repeat split; try apply H; apply difference_mono_r, H.
Qed.

(* --------------------------------------------------------------------- *)
(** ** Scenarios in binary64 *)

Lemma column_set_every_row_empty column (df : DataFrame) :
  column_set column every_row df = ∅ -> df = [].
Proof.
  destruct df as [|r df]; [reflexivity|].
  intros Hempty. exfalso.
  assert (Hin : column r ∈ column_set column every_row (r :: df)).
  { apply elem_of_column_set. exists r. split; [left; reflexivity|].
    split; reflexivity. }
  rewrite Hempty in Hin. exact (not_elem_of_empty _ Hin).
Qed.

Lemma contains_refl_suffix (before needle : string) :
  contains (before +:+ needle) needle.
Proof.
  exists before, "". rewrite app_empty_r. reflexivity.
Qed.

(** C1, as stated, fails: for two empty reading lists the reading-behavior
    component is not zero and the reported score is 3.5, not 0.0. *)
Lemma empty_catalogs_score_nonzero :
  let r := calculate_compatibility (F:=float) "a" [] "b" [] in
  all (books_of (drop_deleted [])) = ∅
  /\ PrimFloat.eqb (reading_behavior (scores_of_frames (F:=float) [] [])) 0 = false
  /\ PrimFloat.eqb (reading_behavior (score_breakdown r)) 0 = false
  /\ PrimFloat.eqb (compatibility_score r) 0 = false
  /\ compatibility_score r = decimal 35 1.
Proof. vm_compute. repeat split; reflexivity. Qed.

(** C1 (amended): for two catalogs whose [all] sets are both empty, the
    components shared_finished, shared_authors, cross_recommendations,
    shared_tbr and disagreement_penalty equal 0, reading_behavior equals
    (1*0.7 + 0*0.3)*0.05, reported as 0.035; the score is 3.5% after
    multiplying by 100 and rounding to one decimal; the level is MINIMAL and
    the diagnosis ends with "Limited overlap with only 0 shared books." *)
Theorem empty_catalogs_scenario (person1_name person2_name : string)
    (person1_df person2_df : DataFrame) :
  all (books_of (drop_deleted person1_df)) = ∅ ->
  all (books_of (drop_deleted person2_df)) = ∅ ->
  let scores := scores_of_frames (F:=float) person1_df person2_df in
  let r := calculate_compatibility (F:=float)
             person1_name person1_df person2_name person2_df in
  (float_eq (shared_finished scores) 0
   /\ float_eq (shared_authors scores) 0
   /\ float_eq (cross_recommendations scores) 0
   /\ float_eq (shared_tbr scores) 0
   /\ float_eq (disagreement_penalty scores) 0
   /\ reading_behavior scores
        = ((of_int 1 * decimal 7 1 + of_int 0 * decimal 3 1) * decimal 5 2)%num)
  /\ (float_eq (shared_finished (score_breakdown r)) 0
      /\ float_eq (shared_authors (score_breakdown r)) 0
      /\ float_eq (cross_recommendations (score_breakdown r)) 0
      /\ float_eq (shared_tbr (score_breakdown r)) 0
      /\ float_eq (disagreement_penalty (score_breakdown r)) 0
      /\ reading_behavior (score_breakdown r) = decimal 35 3)
  /\ compatibility_score r = decimal 35 1
  /\ level_of (total_score scores) = MINIMAL
  /\ diagnosis r = "😅 MINIMAL COMPATIBILITY (3.5%) Limited overlap with only 0 shared books."
  /\ contains (diagnosis r) "Limited overlap with only 0 shared books.".
Proof.
  intros H1 H2 scores r. subst scores r.
  unfold books_of in H1, H2. simpl in H1, H2.
  apply column_set_every_row_empty in H1, H2.
  unfold calculate_compatibility, scores_of_frames. rewrite H1, H2.
  split; [vm_compute; repeat split; reflexivity|].
  split; [vm_compute; repeat split; reflexivity|].
  split; [vm_compute; reflexivity|].
  split; [vm_compute; reflexivity|].
  assert (Hd : diagnosis (calculate_compatibility (F:=float) person1_name []
                            person2_name [])
               = "😅 MINIMAL COMPATIBILITY (3.5%) Limited overlap with only 0 shared books.")
    by (vm_compute; reflexivity).
  unfold calculate_compatibility in Hd. simpl drop_deleted in Hd.
  split; [exact Hd|]. rewrite Hd.
  apply (contains_refl_suffix "😅 MINIMAL COMPATIBILITY (3.5%) ").
Qed.

Lemma empty_catalogs_scenario_witness :
  compatibility_score
    (calculate_compatibility (F:=float) "ann"
       [mkBook (Some "Dune") None (Some "deleted")] "bob" [])
  = decimal 35 1.
Proof.
  apply (empty_catalogs_scenario "ann" "bob"
           [mkBook (Some "Dune") None (Some "deleted")] []);
    reflexivity.
Defined.

Lemma authors_finished_subseteq (df : DataFrame) :
  authors_finished (authors_of df) ⊆ authors_all (authors_of df).
Proof. apply difference_mono_r, column_set_subseteq. Qed.

Lemma subseteq_empty_eq (X Y : gset string) : X ⊆ Y -> Y = ∅ -> X = ∅.
Proof. intros HXY ->. apply leibniz_equiv, equiv_empty, HXY. Qed.

(** C2, as stated, fails: with five shared finished books and nothing else
    the score is 40.0, not 35.0, because the reading-behavior component
    contributes 0.05. *)
Lemma five_finished_score_is_40 :
  let books := books_of (drop_deleted five_finished) in
  let authors := authors_of (drop_deleted five_finished) in
  let r := calculate_compatibility (F:=float) "a" five_finished "b" five_finished in
  size (finished books) = 5
  /\ want_to_read books = ∅ /\ did_not_finish books = ∅ /\ authors_all authors = ∅
  /\ shared_finished (scores_of_frames (F:=float) five_finished five_finished)
       = decimal 35 2
  /\ compatibility_score r = of_int 40
  /\ PrimFloat.eqb (compatibility_score r) (of_int 35) = false.
Proof. vm_compute. repeat split; reflexivity. Qed.

Section FiveShared.
Variables (books1 books2 : Books) (authors1 authors2 : Authors).
Hypothesis same_finished : finished books1 = finished books2.
Hypothesis five : size (finished books1) = 5.
Hypothesis no_tbr1 : want_to_read books1 = ∅.
Hypothesis no_tbr2 : want_to_read books2 = ∅.
Hypothesis no_dnf1 : did_not_finish books1 = ∅.
Hypothesis no_dnf2 : did_not_finish books2 = ∅.
Hypothesis no_authors1 : authors_all authors1 = ∅.
Hypothesis no_authors2 : authors_all authors2 = ∅.
Hypothesis all1 : size (all books1) = 5.
Hypothesis all2 : size (all books2) = 5.

Lemma five_shared_scores :
  compute_scores (F:=float) books1 books2 authors1 authors2
  = {| shared_finished := decimal 35 2;
       shared_authors := of_int 0;
       cross_recommendations := of_int 0;
       shared_tbr := of_int 0;
       reading_behavior := decimal 5 2;
       disagreement_penalty := (- of_int 0)%num |}.
Proof.
  unfold compute_scores.
  rewrite <- same_finished, no_tbr1, no_tbr2, no_dnf1, no_dnf2, no_authors1,
    no_authors2, all1, all2.
  rewrite !intersection_idemp_L, !intersection_empty_r_L, !union_idemp_L,
    !size_empty, five.
  vm_compute. reflexivity.
Qed.

End FiveShared.

(** C2 (amended): for two catalogs with identical finished sets of size 5,
    no authors, no want-to-read titles, no did-not-finish titles and no other
    rows (each [all] set has the 5 finished titles), the shared_finished
    component equals min(1, 5/5)*0.35 = 0.35, the reading_behavior component
    equals 0.05, every other component is 0, the total score is 40.0% and the
    diagnosis level is MODERATE. *)
Theorem five_shared_finished_scenario (person1_name person2_name : string)
    (person1_df person2_df : DataFrame) :
  let books1 := books_of (drop_deleted person1_df) in
  let books2 := books_of (drop_deleted person2_df) in
  let authors1 := authors_of (drop_deleted person1_df) in
  let authors2 := authors_of (drop_deleted person2_df) in
  let scores := scores_of_frames (F:=float) person1_df person2_df in
  let r := calculate_compatibility (F:=float)
             person1_name person1_df person2_name person2_df in
  finished books1 = finished books2 ->
  size (finished books1) = 5 ->
  want_to_read books1 = ∅ -> want_to_read books2 = ∅ ->
  did_not_finish books1 = ∅ -> did_not_finish books2 = ∅ ->
  authors_all authors1 = ∅ -> authors_all authors2 = ∅ ->
  size (all books1) = 5 -> size (all books2) = 5 ->
  shared_finished scores = (py_min (decimal 10 1) (of_int 5 / of_int 5) * decimal 35 2)%num
  /\ shared_finished scores = decimal 35 2
  /\ reading_behavior scores = decimal 5 2
  /\ float_eq (shared_authors scores) 0
  /\ float_eq (cross_recommendations scores) 0
  /\ float_eq (shared_tbr scores) 0
  /\ float_eq (disagreement_penalty scores) 0
  /\ compatibility_score r = of_int 40
  /\ level_of (total_score scores) = MODERATE
  /\ diagnosis r = "👍 MODERATE COMPATIBILITY (40.0%) Some overlap with 5 shared books.".
Proof.
  intros books1 books2 authors1 authors2 scores r Hf H5 Hw1 Hw2 Hd1 Hd2 Ha1 Ha2
    Hall1 Hall2.
  pose proof (five_shared_scores books1 books2 authors1 authors2
                Hf H5 Hw1 Hw2 Hd1 Hd2 Ha1 Ha2 Hall1 Hall2) as Hs.
  assert (Hm : compute_metrics books1 books2 authors1 authors2
               = mkMetrics 5 5 5 0 0 0 0).
  { unfold compute_metrics.
    assert (Haf1 : authors_finished authors1 = ∅)
      by exact (subseteq_empty_eq _ _ (authors_finished_subseteq _) Ha1).
    rewrite <- Hf, Hw1, Hw2, Hd1, Hd2, Haf1.
    rewrite !intersection_idemp_L, !intersection_empty_r_L,
      !intersection_empty_l_L, !size_empty, H5.
    reflexivity. }
  subst scores r. unfold calculate_compatibility, scores_of_frames.
  fold books1 books2 authors1 authors2. rewrite Hs, Hm.
  vm_compute. repeat split; reflexivity.
Qed.

Lemma five_shared_finished_scenario_witness :
  compatibility_score
    (calculate_compatibility (F:=float) "ann" five_finished "bob" five_finished)
  = of_int 40.
Proof.
  apply (five_shared_finished_scenario "ann" "bob" five_finished five_finished);
    vm_compute; reflexivity.
Defined.

(* --------------------------------------------------------------------- *)
(** ** Symmetry *)

Section Swap.
Context {F : Type} {num : Number F}.
Hypothesis abs_sub_swap : forall a b : F, num_abs (a - b)%num = num_abs (b - a)%num.

Lemma compute_scores_swap (books1 books2 : Books) (authors1 authors2 : Authors) :
  compute_scores books2 books1 authors2 authors1
  = compute_scores books1 books2 authors1 authors2.
Proof.
  unfold compute_scores.
  rewrite (intersection_comm_L (finished books2) (finished books1)).
  rewrite (intersection_comm_L (want_to_read books2) (want_to_read books1)).
  rewrite (intersection_comm_L (authors_all authors2) (authors_all authors1)).
  rewrite (union_comm_L (authors_all authors2) (authors_all authors1)).
  rewrite (union_comm_L (want_to_read books2) (want_to_read books1)).
  rewrite (Nat.add_comm (size (finished books2)) (size (finished books1))).
  rewrite (Nat.add_comm (size (authors_all authors2)) (size (authors_all authors1))).
  rewrite (Nat.add_comm (size (want_to_read books2)) (size (want_to_read books1))).
  rewrite (Nat.min_comm (size (finished books2)) (size (finished books1))).
  rewrite (Nat.min_comm (size (all books2)) (size (all books1))).
  rewrite (Nat.max_comm (size (all books2)) (size (all books1))).
  rewrite (Nat.add_comm (size (finished books2 ∩ want_to_read books1))
             (size (finished books1 ∩ want_to_read books2))).
  rewrite (Nat.add_comm (size (finished books2 ∩ did_not_finish books1))
             (size (finished books1 ∩ did_not_finish books2))).
  f_equal. f_equal. f_equal. f_equal. f_equal. apply abs_sub_swap.
Qed.

Lemma compute_metrics_swap (books1 books2 : Books) (authors1 authors2 : Authors) :
  let m12 := compute_metrics books1 books2 authors1 authors2 in
  let m21 := compute_metrics books2 books1 authors2 authors1 in
  person1_books_finished m21 = person2_books_finished m12
  /\ person2_books_finished m21 = person1_books_finished m12
  /\ shared_books_finished m21 = shared_books_finished m12
  /\ metric_shared_authors m21 = metric_shared_authors m12
  /\ metric_cross_recommendations m21 = metric_cross_recommendations m12
  /\ metric_shared_tbr m21 = metric_shared_tbr m12
  /\ disagreements m21 = disagreements m12.
Proof.
  simpl.
  rewrite (intersection_comm_L (finished books2) (finished books1)).
  rewrite (intersection_comm_L (want_to_read books2) (want_to_read books1)).
  rewrite (intersection_comm_L (authors_finished authors2) (authors_finished authors1)).
  repeat split; apply Nat.add_comm.
Qed.

End Swap.

(** The sign given to [binary_round_aux] only shows in the sign of its
    result. *)
Lemma SFabs_binary_round_aux prec emax s s' m e l :
  SFabs (binary_round_aux prec emax s m e l)
  = SFabs (binary_round_aux prec emax s' m e l).
Proof.
  unfold binary_round_aux.
  destruct (shr_fexp prec emax m e l) as [mrs e1].
  destruct (shr_fexp prec emax _ e1 loc_Exact) as [mrs2 e2].
  destruct (shr_m mrs2); [reflexivity| |reflexivity].
  destruct (e2 <=? emax - prec)%Z; reflexivity.
Qed.

Lemma SFabs_binary_normalize_opp prec emax m e :
  SFabs (binary_normalize prec emax (- m) e false)
  = SFabs (binary_normalize prec emax m e false).
Proof.
  destruct m as [|p|p]; simpl; [reflexivity| |];
    unfold binary_round;
    destruct (shl_align p e _) as [mz ez];
    apply SFabs_binary_round_aux.
Qed.

Lemma SFabs_SFsub_swap prec emax x y :
  SFabs (SFsub prec emax x y) = SFabs (SFsub prec emax y x).
Proof.
  destruct x as [sx|sx| |sx mx ex], y as [sy|sy| |sy my ey];
    try (destruct sx, sy; reflexivity); try reflexivity.
  unfold SFsub. rewrite (Z.min_comm ey ex).
  rewrite <- SFabs_binary_normalize_opp. f_equal. f_equal. lia.
Qed.

(** [abs(a - b) == abs(b - a)], bit for bit. *)
Lemma float_abs_sub_swap (a b : float) :
  PrimFloat.abs (PrimFloat.sub a b) = PrimFloat.abs (PrimFloat.sub b a).
Proof.
  apply Prim2SF_inj.
  rewrite !abs_spec, !FloatAxioms.sub_spec. apply SFabs_SFsub_swap.
Qed.

(** C5: swapping the two reading lists leaves every component, and so the
    total and the reported score, unchanged; the cross-recommendation and
    disagreement counts, each a sum over both directions, are unchanged too.
    This holds bit for bit in binary64, and in exact arithmetic. *)
Theorem compatibility_symmetric (name_a name_b : string) (df_a df_b : DataFrame) :
  (let ab := calculate_compatibility (F:=float) name_a df_a name_b df_b in
   let ba := calculate_compatibility (F:=float) name_b df_b name_a df_a in
   let s_ab := scores_of_frames (F:=float) df_a df_b in
   let s_ba := scores_of_frames (F:=float) df_b df_a in
   total_score s_ba = total_score s_ab
   /\ s_ba = s_ab
   /\ cross_recommendations s_ba = cross_recommendations s_ab
   /\ disagreement_penalty s_ba = disagreement_penalty s_ab
   /\ compatibility_score ba = compatibility_score ab
   /\ score_breakdown ba = score_breakdown ab
   /\ metric_cross_recommendations (metrics ba) = metric_cross_recommendations (metrics ab)
   /\ disagreements (metrics ba) = disagreements (metrics ab))
  /\ (let ab := calculate_compatibility (F:=R) name_a df_a name_b df_b in
      let ba := calculate_compatibility (F:=R) name_b df_b name_a df_a in
      let s_ab := scores_of_frames (F:=R) df_a df_b in
      let s_ba := scores_of_frames (F:=R) df_b df_a in
      total_score s_ba = total_score s_ab
      /\ s_ba = s_ab
      /\ compatibility_score ba = compatibility_score ab
      /\ score_breakdown ba = score_breakdown ab).
Proof.
  assert (Hf : scores_of_frames (F:=float) df_b df_a = scores_of_frames df_a df_b)
    by apply (compute_scores_swap (num:=float_number) float_abs_sub_swap).
  assert (Hr : scores_of_frames (F:=R) df_b df_a = scores_of_frames df_a df_b)
    by apply (compute_scores_swap (num:=real_number) Rabs_minus_sym).
  pose proof (compute_metrics_swap
                (books_of (drop_deleted df_a)) (books_of (drop_deleted df_b))
                (authors_of (drop_deleted df_a)) (authors_of (drop_deleted df_b)))
    as (_ & _ & _ & _ & Hcross & _ & Hdis).
  split; cbv zeta; unfold calculate_compatibility;
    cbn [compatibility_score score_breakdown metrics];
    fold (scores_of_frames (F:=float) df_a df_b);
    fold (scores_of_frames (F:=float) df_b df_a);
    fold (scores_of_frames (F:=R) df_a df_b);
    fold (scores_of_frames (F:=R) df_b df_a);
    [rewrite Hf | rewrite Hr]; repeat split; assumption.
Qed.

(* --------------------------------------------------------------------- *)
(** ** Disagreement penalty *)

Lemma sapp_assoc (a b c : string) : (a +:+ b) +:+ c = a +:+ (b +:+ c).
Proof.
  induction a as [|x a IH]; [reflexivity|].
  rewrite !app_cons, IH. reflexivity.
Qed.

Lemma contains_join (parts : list string) (clause : string) :
  In clause parts -> contains (join " " parts) clause.
Proof.
  induction parts as [|p ps IH]; [intros []|].
  intros [->|Hin].
  - destruct ps as [|q ps].
    + exists "", "". unfold join. rewrite app_empty, app_empty_r. reflexivity.
    + exists "", (" " +:+ join " " (q :: ps)). rewrite join_cons, app_empty.
      reflexivity.
  - destruct (IH Hin) as (before & after & Heq).
    destruct ps as [|q ps]; [destruct Hin|].
    exists (p +:+ " " +:+ before), after.
    rewrite join_cons, Heq.
    rewrite !sapp_assoc. reflexivity.
Qed.

Lemma diagnosis_has_disagreement_clause {F} {num : Number F} (score : F)
    (p1 p2 shared_f shared_a cross_recs d : nat) (clause : string) :
  In clause (disagreement_clause d) ->
  contains (generate_diagnosis score p1 p2 shared_f shared_a cross_recs d) clause.
Proof.
  intros Hin. apply contains_join. unfold diagnosis_parts.
  rewrite !in_app_iff. do 4 right. left. exact Hin.
Qed.

Lemma R_py_min (a b : R) : py_min (F:=R) a b = Rmin a b.
Proof.
  unfold py_min, Rmin. simpl. unfold R_ltb.
  destruct (Rlt_dec b a), (Rle_dec a b); try reflexivity; lra.
Qed.

(** C6: the disagreement penalty is -min(0.15, disagreements * 0.02), where
    disagreements = |finished1 ∩ dnf2| + |finished2 ∩ dnf1| is also the
    count reported in the metrics; with 8 disagreements the penalty is -0.15
    and the diagnosis contains "Notable taste differences (8 disagreements).".
    The formula is stated for binary64 and for exact arithmetic. *)
Theorem disagreement_penalty_formula (person1_name person2_name : string)
    (person1_df person2_df : DataFrame) :
  let books1 := books_of (drop_deleted person1_df) in
  let books2 := books_of (drop_deleted person2_df) in
  let d := described_disagreements books1 books2 in
  let r := calculate_compatibility (F:=float)
             person1_name person1_df person2_name person2_df in
  disagreements (metrics r) = d
  /\ disagreement_penalty (scores_of_frames (F:=float) person1_df person2_df)
       = (- py_min (decimal 15 2) (of_nat d * decimal 2 2))%num
  /\ disagreement_penalty (scores_of_frames (F:=R) person1_df person2_df)
       = (- Rmin (15 / 100) (INR d * (2 / 100)))%R
  /\ (d = 8 ->
        disagreement_penalty (scores_of_frames (F:=float) person1_df person2_df)
          = (- decimal 15 2)%num
        /\ disagreement_penalty (score_breakdown r) = (- decimal 15 2)%num
        /\ disagreement_penalty (scores_of_frames (F:=R) person1_df person2_df)
             = (- (15 / 100))%R
        /\ contains (diagnosis r) "Notable taste differences (8 disagreements).").
Proof.
  intros books1 books2 d r.
  assert (Hfloat : disagreement_penalty (scores_of_frames (F:=float) person1_df person2_df)
                   = (- py_min (decimal 15 2) (of_nat d * decimal 2 2))%num)
    by reflexivity.
  assert (Hreal : disagreement_penalty (scores_of_frames (F:=R) person1_df person2_df)
                  = (- Rmin (15 / 100) (INR d * (2 / 100)))%R).
  { change (disagreement_penalty (scores_of_frames (F:=R) person1_df person2_df))
      with (- py_min (F:=R) (decimal 15 2) (of_nat d * decimal 2 2))%num.
    rewrite R_py_min. unfold of_nat. simpl.
    rewrite <- INR_IZR_INZ. reflexivity. }
  split; [reflexivity|]. split; [exact Hfloat|]. split; [exact Hreal|].
  intros H8. split; [rewrite Hfloat, H8; vm_compute; reflexivity|].
  split.
  - subst r. unfold calculate_compatibility.
    cbn [score_breakdown round_scores disagreement_penalty].
    fold (scores_of_frames (F:=float) person1_df person2_df).
    rewrite Hfloat, H8. vm_compute. reflexivity.
  - split.
    + rewrite Hreal, H8. unfold Rmin. simpl INR.
      destruct (Rle_dec _ _) as [_|Hn]; [reflexivity|]. exfalso. apply Hn. lra.
    + subst r. unfold calculate_compatibility. cbn [diagnosis].
      apply diagnosis_has_disagreement_clause.
      change (disagreements (compute_metrics _ _ _ _)) with d. rewrite H8.
      left. reflexivity.
Qed.

Lemma disagreement_penalty_formula_witness :
  disagreement_penalty
    (scores_of_frames (F:=float) (shelf "finished" 8) (shelf "did_not_finish" 8))
  = (- decimal 15 2)%num.
Proof.
  apply (disagreement_penalty_formula "ann" "bob"
           (shelf "finished" 8) (shelf "did_not_finish" 8)).
  vm_compute. reflexivity.
Defined.

(* --------------------------------------------------------------------- *)
(** ** Ranges of the components, in exact arithmetic *)

Section RealBounds.
Local Open Scope R_scope.

Lemma real_decimal_1 (m : Z) : decimal (F:=R) m 1 = IZR m / 10.
Proof. reflexivity. Qed.

Lemma real_decimal_2 (m : Z) : decimal (F:=R) m 2 = IZR m / 100.
Proof. reflexivity. Qed.

Lemma real_of_nat (n : nat) : of_nat (F:=R) n = INR n.
Proof. unfold of_nat. simpl. symmetry. apply INR_IZR_INZ. Qed.

Lemma ratio_nonneg (n m : nat) : (0 < m)%nat -> 0 <= INR n / INR m.
Proof.
  intros Hm. apply Rmult_le_pos; [apply pos_INR|].
  left. apply Rinv_0_lt_compat, lt_0_INR, Hm.
Qed.

Lemma ratio_le_1 (n m : nat) : (n <= m)%nat -> (0 < m)%nat -> INR n / INR m <= 1.
Proof.
  intros Hnm Hm. apply lt_0_INR in Hm. apply le_INR in Hnm.
  apply (Rmult_le_reg_r (INR m)); [exact Hm|].
  unfold Rdiv. rewrite Rmult_assoc, Rinv_l; lra.
Qed.

Lemma Rmin_1_bounds (x : R) : 0 <= x -> 0 <= Rmin 1 x <= 1.
Proof.
  intros Hx. unfold Rmin. destruct (Rle_dec 1 x); lra.
Qed.

Lemma ten_tenths : 10 / 10 = 1.
Proof. lra. Qed.

Ltac real_view :=
  rewrite ?R_py_min, ?real_decimal_1, ?real_decimal_2, ?real_of_nat;
  cbn [num_add num_sub num_mul num_div num_neg num_abs num_sqrt real_number of_int];
  rewrite ?ten_tenths.

Lemma guarded_ratio_bounds (n m : nat) :
  (n <= m)%nat ->
  0 <= (if (0 <? m)%nat then INR n / INR m else 0) <= 1.
Proof.
  intros Hnm. destruct (Nat.ltb_spec 0 m); [|lra].
  split; [apply ratio_nonneg | apply ratio_le_1]; assumption.
Qed.

Lemma size_inter_le_union (A B : gset string) : (size (A ∩ B) <= size (A ∪ B))%nat.
Proof.
  apply subseteq_size. transitivity A;
    [apply intersection_subseteq_l | apply union_subseteq_l].
Qed.

Lemma size_union_pos (A B : gset string) :
  (0 < size A + size B)%nat -> (0 < size (A ∪ B))%nat.
Proof.
  intros Hpos.
  assert (size A <= size (A ∪ B))%nat by (apply subseteq_size; set_solver).
  assert (size B <= size (A ∪ B))%nat by (apply subseteq_size; set_solver).
  lia.
Qed.

Lemma jaccard_bounds (A B : gset string) :
  (0 < size A + size B)%nat ->
  0 <= INR (size (A ∩ B)) / INR (size (A ∪ B)) <= 1.
Proof.
  intros Hpos. apply size_union_pos in Hpos.
  split; [apply ratio_nonneg | apply ratio_le_1]; auto using size_inter_le_union.
Qed.

Lemma real_shared_finished_bounds b1 b2 a1 a2 :
  0 <= shared_finished (compute_scores (F:=R) b1 b2 a1 a2) <= 35 / 100.
Proof.
  unfold compute_scores. cbn [shared_finished].
  destruct (Nat.ltb_spec 0 (size (finished b1) + size (finished b2)));
    [|simpl; lra].
  real_view.
  assert (Hx : 0 <= (if (0 <? size (finished b1) `min` size (finished b2))%nat
                     then INR (size (finished b1 ∩ finished b2))
                          / INR (size (finished b1) `min` size (finished b2))
                     else 0)).
  { destruct (Nat.ltb_spec 0 (size (finished b1) `min` size (finished b2)));
      [apply ratio_nonneg; assumption | lra]. }
  pose proof (Rmin_1_bounds _ Hx). lra.
Qed.

Lemma real_shared_authors_bounds b1 b2 a1 a2 :
  0 <= shared_authors (compute_scores (F:=R) b1 b2 a1 a2) <= 30 / 100.
Proof.
  unfold compute_scores. cbn [shared_authors].
  destruct (Nat.ltb_spec 0 (size (authors_all a1) + size (authors_all a2)))
    as [Hpos|]; [|simpl; lra].
  real_view.
  destruct (jaccard_bounds _ _ Hpos) as [H0 H1].
  pose proof (sqrt_pos (INR (size (authors_all a1 ∩ authors_all a2))
                        / INR (size (authors_all a1 ∪ authors_all a2)))) as Hs0.
  pose proof (sqrt_le_1_alt _ _ H1) as Hs1. rewrite sqrt_1 in Hs1.
  lra.
Qed.

Lemma real_cross_recommendations_bounds b1 b2 a1 a2 :
  0 <= cross_recommendations (compute_scores (F:=R) b1 b2 a1 a2) <= 10 / 100.
Proof.
  unfold compute_scores. cbn [cross_recommendations].
  destruct (Nat.ltb_spec 0 (size (finished b1) + size (finished b2)))
    as [Hpos|]; [|simpl; lra].
  real_view.
  set (cross := INR _). set (total := INR _).
  assert (Hc : 0 <= cross) by apply pos_INR.
  assert (Ht : 0 < total) by (apply lt_0_INR, Hpos).
  assert (Hx : 0 <= cross / (total * (1 / 10))).
  { apply Rmult_le_pos; [exact Hc|]. left. apply Rinv_0_lt_compat. lra. }
  pose proof (Rmin_1_bounds _ Hx). lra.
Qed.

Lemma real_shared_tbr_bounds b1 b2 a1 a2 :
  0 <= shared_tbr (compute_scores (F:=R) b1 b2 a1 a2) <= 20 / 100.
Proof.
  unfold compute_scores. cbn [shared_tbr].
  destruct (Nat.ltb_spec 0 (size (want_to_read b1) + size (want_to_read b2)))
    as [Hpos|]; [|simpl; lra].
  real_view. destruct (jaccard_bounds _ _ Hpos). lra.
Qed.

Lemma real_reading_behavior_bounds b1 b2 a1 a2 :
  finished b1 ⊆ all b1 -> finished b2 ⊆ all b2 ->
  0 <= reading_behavior (compute_scores (F:=R) b1 b2 a1 a2) <= 5 / 100.
Proof.
  intros H1%subseteq_size H2%subseteq_size.
  unfold compute_scores. cbn [reading_behavior]. real_view.
  pose proof (guarded_ratio_bounds _ _ H1) as Hr1.
  pose proof (guarded_ratio_bounds _ _ H2) as Hr2.
  pose proof (guarded_ratio_bounds _ _
                (Nat.le_trans _ _ _ (Nat.le_min_l (size (all b1)) (size (all b2)))
                   (Nat.le_max_l (size (all b1)) (size (all b2))))) as Hs.
  set (r1 := if (0 <? size (all b1))%nat then _ else _) in *.
  set (r2 := if (0 <? size (all b2))%nat then _ else _) in *.
  set (sr := if (0 <? _ `max` _)%nat then _ else _) in *.
  assert (Habs : 0 <= Rabs (r1 - r2) <= 1).
  { split; [apply Rabs_pos|]. apply Rabs_le. lra. }
  lra.
Qed.

Lemma real_disagreement_penalty_bounds b1 b2 a1 a2 :
  - (15 / 100) <= disagreement_penalty (compute_scores (F:=R) b1 b2 a1 a2) <= 0.
Proof.
  unfold compute_scores. cbn [disagreement_penalty]. real_view.
  set (d := INR _). assert (Hd : 0 <= d) by apply pos_INR.
  unfold Rmin. destruct (Rle_dec _ _); lra.
Qed.

Lemma R_nearest_even_ge (y : R) (k : Z) : IZR k <= y -> (k <= R_nearest_even y)%Z.
Proof.
  intros Hk. unfold R_nearest_even.
  destruct (base_Int_part y) as [Hf1 Hf2].
  assert (Hkf : (k <= Int_part y)%Z).
  { apply Z.lt_succ_r, lt_IZR. rewrite succ_IZR. lra. }
  destruct (Rlt_dec _ _); [exact Hkf|].
  destruct (Rlt_dec _ _); [lia|].
  destruct (Z.even _); lia.
Qed.

Lemma R_nearest_even_le (y : R) (k : Z) : y <= IZR k -> (R_nearest_even y <= k)%Z.
Proof.
  intros Hk. unfold R_nearest_even.
  destruct (base_Int_part y) as [Hf1 Hf2].
  destruct (Rlt_dec _ _) as [|Hhalf]; [apply le_IZR; lra|].
  assert (Hfk : (Int_part y + 1 <= k)%Z).
  { apply Z.le_succ_l, lt_IZR. lra. }
  destruct (Rlt_dec _ _); [exact Hfk|].
  destruct (Z.even _); lia.
Qed.

Lemma R_round_bounds (digits : nat) (lo hi : Z) (x : R) :
  IZR lo / IZR (10 ^ Z.of_nat digits) <= x <= IZR hi / IZR (10 ^ Z.of_nat digits) ->
  IZR lo / IZR (10 ^ Z.of_nat digits) <= R_round digits x
    <= IZR hi / IZR (10 ^ Z.of_nat digits).
Proof.
  intros [Hlo Hhi]. unfold R_round.
  assert (Hp : 0 < IZR (10 ^ Z.of_nat digits)).
  { apply IZR_lt. apply Z.pow_pos_nonneg; lia. }
  set (p := IZR (10 ^ Z.of_nat digits)) in *.
  assert (Hlo' : IZR lo <= x * p).
  { apply (Rmult_le_compat_r p) in Hlo; [|lra].
    unfold Rdiv in Hlo. rewrite Rmult_assoc, Rinv_l in Hlo; lra. }
  assert (Hhi' : x * p <= IZR hi).
  { apply (Rmult_le_compat_r p) in Hhi; [|lra].
    unfold Rdiv in Hhi. rewrite Rmult_assoc, Rinv_l in Hhi; lra. }
  apply R_nearest_even_ge, IZR_le in Hlo'.
  apply R_nearest_even_le, IZR_le in Hhi'.
  split; apply Rmult_le_compat_r; try assumption;
    left; apply Rinv_0_lt_compat; exact Hp.
Qed.

Lemma R_round3_bounds (lo hi : Z) (x : R) :
  IZR lo / 1000 <= x <= IZR hi / 1000 ->
  IZR lo / 1000 <= R_round 3 x <= IZR hi / 1000.
Proof. exact (R_round_bounds 3 lo hi x). Qed.

Lemma R_round3_in (lo hi : Z) (a b x : R) :
  a = IZR lo / 1000 -> b = IZR hi / 1000 ->
  a <= x <= b -> a <= R_round 3 x <= b.
Proof. intros -> ->. apply R_round3_bounds. Qed.

Ltac round3 lo hi H := apply (R_round3_in lo hi); [lra | lra | exact H].

Lemma R_round1_bounds (lo hi : Z) (x : R) :
  IZR lo / 10 <= x <= IZR hi / 10 ->
  IZR lo / 10 <= R_round 1 x <= IZR hi / 10.
Proof. exact (R_round_bounds 1 lo hi x). Qed.

(** In exact arithmetic, for every pair of reading lists, the six
    components lie in their intervals, both as computed and as reported in
    the score breakdown: shared_authors in [0, 0.30], shared_tbr in
    [0, 0.20], shared_finished in [0, 0.35], cross_recommendations in
    [0, 0.10], reading_behavior in [0, 0.05], disagreement_penalty in
    [-0.15, 0]; so the total is in [-0.15, 1.0] and the reported percentage
    in [-15.0, 100.0]. *)
Theorem score_components_in_range (person1_name person2_name : string)
    (person1_df person2_df : DataFrame) :
  let scores := scores_of_frames (F:=R) person1_df person2_df in
  let r := calculate_compatibility (F:=R)
             person1_name person1_df person2_name person2_df in
  (0 <= shared_authors scores <= 30 / 100
   /\ 0 <= shared_tbr scores <= 20 / 100
   /\ 0 <= shared_finished scores <= 35 / 100
   /\ 0 <= cross_recommendations scores <= 10 / 100
   /\ 0 <= reading_behavior scores <= 5 / 100
   /\ - (15 / 100) <= disagreement_penalty scores <= 0)
  /\ (0 <= shared_authors (score_breakdown r) <= 30 / 100
      /\ 0 <= shared_tbr (score_breakdown r) <= 20 / 100
      /\ 0 <= shared_finished (score_breakdown r) <= 35 / 100
      /\ 0 <= cross_recommendations (score_breakdown r) <= 10 / 100
      /\ 0 <= reading_behavior (score_breakdown r) <= 5 / 100
      /\ - (15 / 100) <= disagreement_penalty (score_breakdown r) <= 0)
  /\ - (15 / 100) <= total_score scores <= 1
  /\ - 15 <= compatibility_score r <= 100.
Proof.
  intros scores r.
  pose proof (real_shared_authors_bounds (books_of (drop_deleted person1_df))
                (books_of (drop_deleted person2_df))
                (authors_of (drop_deleted person1_df))
                (authors_of (drop_deleted person2_df))) as Ha.
  pose proof (real_shared_tbr_bounds (books_of (drop_deleted person1_df))
                (books_of (drop_deleted person2_df))
                (authors_of (drop_deleted person1_df))
                (authors_of (drop_deleted person2_df))) as Ht.
  pose proof (real_shared_finished_bounds (books_of (drop_deleted person1_df))
                (books_of (drop_deleted person2_df))
                (authors_of (drop_deleted person1_df))
                (authors_of (drop_deleted person2_df))) as Hf.
  pose proof (real_cross_recommendations_bounds (books_of (drop_deleted person1_df))
                (books_of (drop_deleted person2_df))
                (authors_of (drop_deleted person1_df))
                (authors_of (drop_deleted person2_df))) as Hc.
  pose proof (real_reading_behavior_bounds (books_of (drop_deleted person1_df))
                (books_of (drop_deleted person2_df))
                (authors_of (drop_deleted person1_df))
                (authors_of (drop_deleted person2_df))
                (column_set_subseteq _ _ _) (column_set_subseteq _ _ _)) as Hb.
  pose proof (real_disagreement_penalty_bounds (books_of (drop_deleted person1_df))
                (books_of (drop_deleted person2_df))
                (authors_of (drop_deleted person1_df))
                (authors_of (drop_deleted person2_df))) as Hp.
  fold (scores_of_frames (F:=R) person1_df person2_df) in Ha, Ht, Hf, Hc, Hb, Hp.
  fold scores in Ha, Ht, Hf, Hc, Hb, Hp.
  assert (Htotal : - (15 / 100) <= total_score scores <= 1).
  { unfold total_score, py_sum, score_values.
    cbn [fold_left num_add real_number of_int]. lra. }
  split; [tauto|].
  subst r. unfold calculate_compatibility.
  cbn [score_breakdown round_scores compatibility_score shared_finished
         shared_authors cross_recommendations shared_tbr reading_behavior
         disagreement_penalty].
  fold (scores_of_frames (F:=R) person1_df person2_df). fold scores.
  cbn [num_round num_mul of_int real_number].
  split; [|split; [exact Htotal|]].
  - split; [round3 0%Z 300%Z Ha|].
    split; [round3 0%Z 200%Z Ht|].
    split; [round3 0%Z 350%Z Hf|].
    split; [round3 0%Z 100%Z Hc|].
    split; [round3 0%Z 50%Z Hb|].
    round3 (-150)%Z 0%Z Hp.
  - replace (-15) with (IZR (-150) / 10) by lra.
    replace 100 with (IZR 1000 / 10) by lra.
    apply (R_round1_bounds (-150) 1000). lra.
Qed.

End RealBounds.

(** In binary64 the upper ends are met together: two copies of
    [full_overlap] score exactly 1.0, reported as 100.0. *)
Example full_overlap_binary64 :
  let scores := scores_of_frames (F:=float) full_overlap full_overlap in
  let r := calculate_compatibility (F:=float) "ann" full_overlap "bob" full_overlap in
  scores = mkScores (decimal 35 2) (decimal 30 2) (decimal 10 2) (decimal 20 2)
             (decimal 5 2) (- of_int 0)%num
  /\ total_score scores = of_int 1
  /\ compatibility_score r = of_int 100.
Proof. vm_compute. repeat split; reflexivity. Qed.

(* --------------------------------------------------------------------- *)
(** ** Sorting *)

Section SortingFacts.
Context {A K : Type} (key : A -> K) (lt eqk : K -> K -> bool) (ok : K -> Prop).
Hypothesis lt_asym : forall x y, ok x -> ok y -> lt x y = true -> lt y x = false.
Hypothesis le_trans : forall x y z, ok x -> ok y -> ok z ->
  lt y x = false -> lt z y = false -> lt z x = false.
Hypothesis lt_eq_excl : forall x y k,
  lt y x = true -> eqk y k = true -> eqk x k = true -> False.

Local Abbreviation keys_ok l := (Forall (fun a => ok (key a)) l).
Local Abbreviation ascending := (ascending key lt).
Local Abbreviation descending := (descending key lt).
Local Abbreviation with_key := (with_key key eqk).

Lemma insert_by_perm (x : A) (l : list A) :
  Permutation (x :: l) (insert_by key lt x l).
Proof.
  induction l as [|y l IH]; simpl; [reflexivity|].
  destruct (lt (key y) (key x)); [|reflexivity].
  rewrite <- IH. apply perm_swap.
Qed.

Lemma sort_by_perm (l : list A) : Permutation l (sort_by key lt l).
Proof.
  induction l as [|x l IH]; simpl; [reflexivity|].
  rewrite <- insert_by_perm. constructor. exact IH.
Qed.

Lemma list_sort_perm (reverse : bool) (l : list A) :
  Permutation l (list_sort key lt reverse l).
Proof.
  unfold list_sort. destruct reverse; [|apply sort_by_perm].
  rewrite <- Permutation_rev, <- sort_by_perm. apply Permutation_rev.
Qed.

Lemma insert_by_ascending (x : A) (l : list A) :
  ok (key x) -> keys_ok l -> ascending l -> ascending (insert_by key lt x l).
Proof.
  intros Hx. induction l as [|y l IH]; intros Hok Hs; simpl.
  - repeat constructor.
  - apply Forall_cons in Hok as [Hy Hok].
    apply StronglySorted_inv in Hs as [Hs Hall].
    destruct (lt (key y) (key x)) eqn:Hyx.
    + constructor; [apply IH; assumption|].
      apply (Permutation_Forall (insert_by_perm x l)).
      constructor; [apply lt_asym; assumption | exact Hall].
    + constructor; [constructor; assumption|].
      constructor; [exact Hyx|].
      rewrite Forall_forall in Hall, Hok |- *. intros z Hz.
      apply (le_trans _ (key y)); auto.
Qed.

Lemma sort_by_ascending (l : list A) : keys_ok l -> ascending (sort_by key lt l).
Proof.
  induction l as [|x l IH]; intros Hok; simpl; [constructor|].
  apply Forall_cons in Hok as [Hx Hok].
  apply insert_by_ascending; [exact Hx| |apply IH, Hok].
  apply (Permutation_Forall (sort_by_perm l)), Hok.
Qed.

Lemma ascending_rev (l : list A) : ascending l -> descending (rev l).
Proof.
  unfold ascending, descending. induction 1 as [|x l Hs IH Hall]; simpl.
  - constructor.
  - apply StronglySorted_app. split; [|split; [exact IH | repeat constructor]].
    intros a b Ha Hb. apply list_elem_of_In, in_rev in Ha.
    apply list_elem_of_In in Hb. destruct Hb as [<-|[]].
    rewrite Forall_forall in Hall. apply Hall, list_elem_of_In, Ha.
Qed.

Lemma list_sort_descending (l : list A) :
  keys_ok l -> descending (list_sort key lt true l).
Proof.
  intros Hok. apply ascending_rev, sort_by_ascending.
  apply (Permutation_Forall (Permutation_rev l)), Hok.
Qed.

Lemma filter_insert_by (k : K) (x : A) (l : list A) :
  List.filter (with_key k) (insert_by key lt x l)
  = List.filter (with_key k) (x :: l).
Proof.
  induction l as [|y l IH]; [reflexivity|].
  simpl in *. destruct (lt (key y) (key x)) eqn:Hyx; [|reflexivity].
  simpl. rewrite IH.
  destruct (with_key k x) eqn:Hx; [|reflexivity].
  destruct (with_key k y) eqn:Hy; [|reflexivity].
  destruct (lt_eq_excl _ _ _ Hyx Hy Hx).
Qed.

Lemma filter_sort_by (k : K) (l : list A) :
  List.filter (with_key k) (sort_by key lt l) = List.filter (with_key k) l.
Proof.
  induction l as [|x l IH]; [reflexivity|].
  simpl sort_by. rewrite filter_insert_by. simpl. rewrite IH. reflexivity.
Qed.

(** Stability: the elements with any one key come out in their order of
    arrival. *)
Lemma list_sort_stable (reverse : bool) (k : K) (l : list A) :
  List.filter (with_key k) (list_sort key lt reverse l) = List.filter (with_key k) l.
Proof.
  unfold list_sort. destruct reverse; [|apply filter_sort_by].
  rewrite List.filter_rev, filter_sort_by, List.filter_rev. apply rev_involutive.
Qed.

End SortingFacts.

(** ** Order of binary64 scores *)

Ltac sf_compare_cases :=
  unfold SFltb, SFleb, SFeqb, SFcompare;
  repeat match goal with
         | s : bool |- _ => destruct s
         end;
  repeat match goal with
         | |- context [(?a ?= ?b)%Z] => destruct (Z.compare_spec a b)
         | |- context [PosDef.Pos.compare_cont Eq ?a ?b] =>
             change (PosDef.Pos.compare_cont Eq a b) with (Pos.compare a b);
             destruct (Pos.compare_spec a b)
         end;
  simpl; try congruence; try lia.

Lemma SFltb_asym (a b : spec_float) : SFltb a b = true -> SFltb b a = false.
Proof.
  destruct a as [sa|sa| |sa ma ea], b as [sb|sb| |sb mb eb]; sf_compare_cases.
Qed.

Lemma SFltb_le_trans (a b c : spec_float) :
  a <> S754_nan -> b <> S754_nan -> c <> S754_nan ->
  SFltb b a = false -> SFltb c b = false -> SFltb c a = false.
Proof.
  destruct a as [sa|sa| |sa ma ea], b as [sb|sb| |sb mb eb],
    c as [sc|sc| |sc mc ec]; intros Ha Hb Hc; try congruence;
    clear Ha Hb Hc; sf_compare_cases.
Qed.

Lemma SFltb_eq_excl (a b k : spec_float) :
  SFltb b a = true -> SFeqb b k = true -> SFeqb a k = true -> False.
Proof.
  destruct a as [sa|sa| |sa ma ea], b as [sb|sb| |sb mb eb],
    k as [sk|sk| |sk mk ek]; sf_compare_cases.
Qed.

Lemma SFltb_false_leb (a b : spec_float) :
  a <> S754_nan -> b <> S754_nan -> SFltb a b = false -> SFleb b a = true.
Proof.
  destruct a as [sa|sa| |sa ma ea], b as [sb|sb| |sb mb eb]; intros Ha Hb;
    try congruence; clear Ha Hb; sf_compare_cases.
Qed.

Lemma is_number_spec (x : float) : is_number x -> Prim2SF x <> S754_nan.
Proof.
  unfold is_number, PrimFloat.is_nan. rewrite FloatAxioms.eqb_spec.
  intros Hx Hnan. rewrite Hnan in Hx. discriminate Hx.
Qed.

Lemma float_lt_asym (x y : float) :
  is_number x -> is_number y -> PrimFloat.ltb x y = true -> PrimFloat.ltb y x = false.
Proof. intros _ _. rewrite !FloatAxioms.ltb_spec. apply SFltb_asym. Qed.

Lemma float_le_trans (x y z : float) :
  is_number x -> is_number y -> is_number z ->
  PrimFloat.ltb y x = false -> PrimFloat.ltb z y = false -> PrimFloat.ltb z x = false.
Proof.
  intros Hx%is_number_spec Hy%is_number_spec Hz%is_number_spec.
  rewrite !FloatAxioms.ltb_spec. apply SFltb_le_trans; assumption.
Qed.

Lemma float_lt_eq_excl (x y k : float) :
  PrimFloat.ltb y x = true -> PrimFloat.eqb y k = true -> PrimFloat.eqb x k = true
  -> False.
Proof. rewrite FloatAxioms.ltb_spec, !FloatAxioms.eqb_spec. apply SFltb_eq_excl. Qed.

Lemma float_not_lt_leb (x y : float) :
  is_number x -> is_number y -> PrimFloat.ltb x y = false -> PrimFloat.leb y x = true.
Proof.
  intros Hx%is_number_spec Hy%is_number_spec.
  rewrite FloatAxioms.ltb_spec, FloatAxioms.leb_spec.
  apply SFltb_false_leb; assumption.
Qed.

(** ** Order of exact scores *)

Lemma R_lt_asym (x y : R) : True -> True -> R_ltb x y = true -> R_ltb y x = false.
Proof.
  intros _ _. unfold R_ltb. destruct (Rlt_dec x y), (Rlt_dec y x);
    try reflexivity; try discriminate. lra.
Qed.

Lemma R_le_trans (x y z : R) :
  True -> True -> True -> R_ltb y x = false -> R_ltb z y = false -> R_ltb z x = false.
Proof.
  intros _ _ _. unfold R_ltb.
  destruct (Rlt_dec y x), (Rlt_dec z y), (Rlt_dec z x);
    try reflexivity; try discriminate. lra.
Qed.

Lemma R_lt_eq_excl (x y k : R) :
  R_ltb y x = true -> R_eqb y k = true -> R_eqb x k = true -> False.
Proof.
  unfold R_ltb, R_eqb.
  destruct (Rlt_dec y x), (Req_dec_T y k), (Req_dec_T x k);
    try discriminate. lra.
Qed.

Lemma StronglySorted_weaken {A} (P : A -> Prop) (R1 R2 : A -> A -> Prop) l :
  (forall a b, P a -> P b -> R1 a b -> R2 a b) ->
  Forall P l -> StronglySorted R1 l -> StronglySorted R2 l.
Proof.
  intros Himp Hall. induction 1 as [|x l Hs IH Hx]; [constructor|].
  apply Forall_cons in Hall as [Hpx Hpl].
  constructor; [apply IH, Hpl|].
  rewrite Forall_forall in Hx, Hpl |- *. auto.
Qed.

(** C9: the list written by [save_results] is a rearrangement of the
    collected pair results, sorted by [compatibility_score] in descending
    order, in which the results with any one score keep the order in which
    they were computed.  In binary64 this is for scores that are numbers; in
    exact arithmetic it holds for every list. *)
Theorem save_results_sorted_stable :
  (forall results : list (PairResult float),
     Forall (fun r => is_number (compatibility_score r)) results ->
     let emitted := save_results results in
     Permutation results emitted
     /\ StronglySorted
          (fun a b => PrimFloat.leb (compatibility_score b) (compatibility_score a) = true)
          emitted
     /\ forall k,
          List.filter (fun r => PrimFloat.eqb (compatibility_score r) k) emitted
          = List.filter (fun r => PrimFloat.eqb (compatibility_score r) k) results)
  /\ (forall results : list (PairResult R),
        let emitted := save_results results in
        Permutation results emitted
        /\ StronglySorted
             (fun a b => (compatibility_score b <= compatibility_score a)%R) emitted
        /\ forall k,
             List.filter (fun r => R_eqb (compatibility_score r) k) emitted
             = List.filter (fun r => R_eqb (compatibility_score r) k) results).
Proof.
  split.
  - intros results Hok emitted. subst emitted. unfold save_results.
    split; [apply list_sort_perm|]. split.
    + apply (StronglySorted_weaken (fun r => is_number (compatibility_score r))
               (fun a b => PrimFloat.ltb (compatibility_score a) (compatibility_score b) = false)).
      * intros a b Ha Hb. apply float_not_lt_leb; assumption.
      * apply (Permutation_Forall (list_sort_perm _ _ true results)), Hok.
      * apply (list_sort_descending compatibility_score PrimFloat.ltb is_number
                 float_lt_asym float_le_trans results Hok).
    + intros k.
      apply (list_sort_stable compatibility_score PrimFloat.ltb PrimFloat.eqb
               float_lt_eq_excl true k results).
  - intros results emitted. subst emitted. unfold save_results.
    split; [apply list_sort_perm|]. split.
    + apply (StronglySorted_weaken (fun _ => True)
               (fun a b => R_ltb (compatibility_score a) (compatibility_score b) = false)).
      * intros a b _ _. simpl. unfold R_ltb.
        destruct (Rlt_dec _ _); [discriminate|]. intros _. lra.
      * apply Forall_forall. auto.
      * apply (list_sort_descending compatibility_score R_ltb (fun _ => True)
                 R_lt_asym R_le_trans results).
        apply Forall_forall. auto.
    + intros k.
      apply (list_sort_stable compatibility_score R_ltb R_eqb
               R_lt_eq_excl true k results).
Qed.

Lemma save_results_sorted_stable_witness :
  let ab := calculate_compatibility (F:=float) "ann" [] "bob" [] in
  let ac := calculate_compatibility (F:=float) "ann" five_finished "cat" five_finished in
  let ad := calculate_compatibility (F:=float) "ann" [] "dan" [] in
  Permutation [ab; ac; ad] (save_results [ab; ac; ad]).
Proof.
  intros ab ac ad.
  apply (proj1 save_results_sorted_stable [ab; ac; ad]).
  repeat constructor; vm_compute; reflexivity.
Defined.

(** Two results with the score 3.5 around one with the score 40.0: the
    larger score comes first, the tie keeps its order. *)
Example save_results_example :
  let ab := calculate_compatibility (F:=float) "ann" [] "bob" [] in
  let ac := calculate_compatibility (F:=float) "ann" five_finished "cat" five_finished in
  let ad := calculate_compatibility (F:=float) "ann" [] "dan" [] in
  save_results [ab; ac; ad] = [ac; ab; ad].
Proof. vm_compute. reflexivity. Qed.

(* ===================================================================== *)
(** * Further properties of the normalizer *)

Lemma sfilter_app p (s t : string) : sfilter p (s +:+ t) = sfilter p s +:+ sfilter p t.
Proof.
  induction s as [|c s IH]; [reflexivity|].
  rewrite app_cons. simpl. rewrite IH. destruct (p c); reflexivity.
Qed.

Lemma smap_app f (s t : string) : smap f (s +:+ t) = smap f s +:+ smap f t.
Proof.
  induction s as [|c s IH]; [reflexivity|].
  rewrite app_cons. simpl. rewrite IH. reflexivity.
Qed.

Lemma lower_char_idem c : lower_char (lower_char c) = lower_char c.
Proof. destruct c as [[] [] [] [] [] [] [] []]; reflexivity. Qed.

Lemma lower_char_space c : is_space (lower_char c) = is_space c.
Proof. destruct c as [[] [] [] [] [] [] [] []]; reflexivity. Qed.

Lemma lower_char_word c : is_word (lower_char c) = is_word c.
Proof. destruct c as [[] [] [] [] [] [] [] []]; reflexivity. Qed.

Lemma space_lower_fixed c : is_space c = true -> lower_char c = c.
Proof. destruct c as [[] [] [] [] [] [] [] []]; (discriminate || reflexivity). Qed.

Lemma space_not_word c : is_space c = true -> is_word c = false.
Proof. destruct c as [[] [] [] [] [] [] [] []]; (discriminate || reflexivity). Qed.

Lemma lower_idem s : lower (lower s) = lower s.
Proof.
  unfold lower. induction s as [|c s IH]; simpl; [reflexivity|].
  rewrite lower_char_idem, IH. reflexivity.
Qed.

Lemma rstrip_idem s : rstrip (rstrip s) = rstrip s.
Proof.
  induction s as [|c s IH]; [reflexivity|].
  simpl. destruct (rstrip s) as [|d r] eqn:Hr.
  - destruct (is_space c) eqn:Hc; [reflexivity|]. simpl. rewrite Hc. reflexivity.
  - simpl in *. rewrite IH. reflexivity.
Qed.

Lemma lstrip_head s :
  match lstrip s with
  | EmptyString => True
  | String c _ => is_space c = false
  end.
Proof.
  induction s as [|c s IH]; simpl; [exact I|].
  destruct (is_space c) eqn:Hc; [exact IH | exact Hc].
Qed.

Lemma lstrip_fixed_head c s : is_space c = false -> lstrip (String c s) = String c s.
Proof. intros Hc. simpl. rewrite Hc. reflexivity. Qed.

Lemma rstrip_keeps_head c s :
  is_space c = false -> exists r, rstrip (String c s) = String c r.
Proof.
  intros Hc. simpl. destruct (rstrip s); [rewrite Hc|]; eauto.
Qed.

Lemma lstrip_strip s : lstrip (strip s) = strip s.
Proof.
  unfold strip. pose proof (lstrip_head s) as Hh.
  destruct (lstrip s) as [|c r]; [reflexivity|].
  destruct (rstrip_keeps_head c r Hh) as [r' ->].
  apply lstrip_fixed_head, Hh.
Qed.

Lemma strip_idem s : strip (strip s) = strip s.
Proof.
  unfold strip at 1. rewrite lstrip_strip. unfold strip. apply rstrip_idem.
Qed.

Lemma no_double_space_word_app (w s : string) :
  sforall (fun c => negb (is_space c)) w = true ->
  no_double_space s = true -> no_double_space (w +:+ s) = true.
Proof.
  induction w as [|c w IH]; intros Hw Hs; [exact Hs|].
  simpl in Hw. apply andb_true_iff in Hw as [Hc Hw].
  apply negb_true_iff in Hc. rewrite app_cons.
  specialize (IH Hw Hs). destruct (w +:+ s) as [|b t] eqn:Hwt; [reflexivity|].
  change (negb (is_space c && is_space b) && no_double_space (String b t) = true).
  rewrite Hc, IH. reflexivity.
Qed.

Lemma no_double_space_join (ws : list string) :
  Forall word_ok ws -> no_double_space (join " " ws) = true.
Proof.
  induction 1 as [|w ws [Hne Hw] Hws IH]; [reflexivity|].
  destruct ws as [|v ws].
  - change (join " " [w]) with w. rewrite <- (app_empty_r w).
    apply no_double_space_word_app; [exact Hw | reflexivity].
  - rewrite join_cons. apply no_double_space_word_app; [exact Hw|].
    rewrite app_cons, app_empty.
    inversion Hws as [|? ? [Hv Hvs] _]; subst.
    destruct v as [|b v]; [congruence|].
    rewrite join_cons_char in *. simpl in Hvs.
    apply andb_true_iff in Hvs as [Hb _]. apply negb_true_iff in Hb.
    change (negb (is_space " " && is_space b)
            && no_double_space (String b (match v with
                                          | EmptyString =>
                                              match ws with
                                              | [] => EmptyString
                                              | _ => " " +:+ join " " ws
                                              end
                                          | _ => join " " (v :: ws)
                                          end)) = true).
    rewrite Hb, IH. reflexivity.
Qed.

Lemma settled_word_title_char c :
  settled c = true -> is_space c = false -> title_char c = true.
Proof.
  unfold settled, title_char, keep_char.
  intros [Hk Hl]%andb_true_iff Hs. rewrite Hs, orb_false_r in Hk.
  rewrite Hk, Hl. apply orb_true_r.
Qed.

Lemma sforall_and p q s :
  sforall p s = true -> sforall q s = true ->
  sforall (fun c => p c && q c) s = true.
Proof.
  induction s as [|c s IH]; simpl; [reflexivity|].
  intros [Hp Hps]%andb_true_iff [Hq Hqs]%andb_true_iff.
  rewrite Hp, Hq, (IH Hps Hqs). reflexivity.
Qed.

Lemma Forall_and_words (P Q : string -> Prop) (ws : list string) :
  Forall P ws -> Forall Q ws -> Forall (fun w => P w /\ Q w) ws.
Proof. induction 1; inversion 1; subst; constructor; auto. Qed.

(** X1: a normalized title is made of lower-case word characters and single
    spaces only, and neither starts nor ends with a space. *)
Theorem normalize_title_shape (x : option string) :
  let t := normalize_title x in
  sforall title_char t = true
  /\ no_double_space t = true
  /\ lstrip t = t
  /\ rstrip t = t.
Proof.
  destruct x as [s|]; [|repeat split; reflexivity].
  cbv zeta. unfold normalize_title.
  set (u := re_sub_non_word_space (lower s)).
  pose proof (split_words u) as Hw.
  pose proof (split_sforall settled u (filtered_lower_settled s)) as Hs.
  split; [|split; [apply no_double_space_join, Hw|]].
  - apply join_sforall; [reflexivity|].
    pose proof (Forall_and_words _ _ _ Hw Hs) as Hall.
    eapply Forall_impl; [exact Hall|]. intros w [[_ Hns] Hst]. simpl.
    pose proof (sforall_and _ _ _ Hst Hns) as Hboth.
    eapply sforall_impl; [|exact Hboth]. intros c [Hc1 Hc2]%andb_true_iff.
    apply settled_word_title_char; [exact Hc1 | apply negb_true_iff, Hc2].
  - rewrite join_split_trim_collapse. unfold trim.
    change (rstrip (lstrip (collapse_ws u))) with (strip (collapse_ws u)).
    split; [apply lstrip_strip | apply rstrip_idem].
Qed.

Lemma split_scan_space_kind (a b : string) (c : ascii) :
  is_space c = true ->
  split_scan (a +:+ String c b) = split_scan (a +:+ String " " b).
Proof.
  intros Hc. induction a as [|d a IH].
  - rewrite !app_empty. simpl. rewrite Hc. reflexivity.
  - rewrite !app_cons. simpl. rewrite IH. reflexivity.
Qed.

(** X2: a title and its lower-cased form get the same key, and so do two
    titles that differ only in which whitespace character stands at some
    place. *)
Theorem normalize_title_insensitive (s a b : string) (c : ascii) :
  normalize_title (Some (lower s)) = normalize_title (Some s)
  /\ (is_space c = true ->
        normalize_title (Some (a +:+ String c b))
          = normalize_title (Some (a +:+ String " " b))).
Proof.
  unfold normalize_title, re_sub_non_word_space.
  split; [rewrite lower_idem; reflexivity|].
  unfold lower. rewrite !smap_app. simpl. rewrite !sfilter_app. simpl.
  intros Hc. rewrite (space_lower_fixed c Hc).
  unfold keep_char. rewrite Hc, orb_true_r. simpl.
  unfold split. rewrite (split_scan_space_kind _ _ c Hc). reflexivity.
Qed.

Lemma normalize_title_insensitive_witness :
  normalize_title (Some ("Spider" +:+ String "009" "Man"))
    = normalize_title (Some ("Spider" +:+ String " " "Man")).
Proof.
  apply (normalize_title_insensitive "" "Spider" "Man" "009"). reflexivity.
Defined.

Lemma split_scan_all_space s :
  sforall is_space s = true -> split_scan s = (EmptyString, []).
Proof.
  induction s as [|c s IH]; [reflexivity|].
  simpl. intros [Hc Hs]%andb_true_iff. rewrite (IH Hs), Hc. reflexivity.
Qed.

Lemma split_nil_iff s : split s = [] <-> sforall is_space s = true.
Proof.
  split.
  - unfold split. induction s as [|c s IH]; [reflexivity|].
    simpl. destruct (split_scan s) as [w ws].
    destruct (is_space c) eqn:Hc; simpl.
    + intros Hnil. apply IH. exact Hnil.
    + discriminate.
  - intros Hs. unfold split. rewrite (split_scan_all_space s Hs). reflexivity.
Qed.

Lemma kept_space_iff_not_word c :
  keep_char c = true -> is_space c = negb (is_word c).
Proof. destruct c as [[] [] [] [] [] [] [] []]; (discriminate || reflexivity). Qed.

Lemma filtered_all_space s :
  sforall is_space (re_sub_non_word_space (lower s))
  = sforall (fun c => negb (is_word c)) s.
Proof.
  unfold re_sub_non_word_space, lower.
  induction s as [|c s IH]; [reflexivity|].
  simpl. destruct (keep_char (lower_char c)) eqn:Hk.
  - simpl. rewrite IH, (kept_space_iff_not_word _ Hk), lower_char_word.
    reflexivity.
  - rewrite IH. unfold keep_char in Hk. apply orb_false_iff in Hk as [Hw _].
    rewrite lower_char_word in Hw. rewrite Hw. reflexivity.
Qed.

(** X3: the key of a title is empty exactly when the title has no letter,
    digit or underscore; a missing title has the empty key too. *)
Theorem normalize_title_empty_iff (s : string) :
  normalize_title None = ""
  /\ (normalize_title (Some s) = ""
      <-> sforall (fun c => negb (is_word c)) s = true).
Proof.
  split; [reflexivity|]. unfold normalize_title.
  rewrite <- filtered_all_space, <- split_nil_iff. split.
  - apply join_words_nonempty, split_words.
  - intros ->. reflexivity.
Qed.

(* --------------------------------------------------------------------- *)
(** ** Primary author *)

Lemma lstrip_lower s : lstrip (lower s) = lower (lstrip s).
Proof.
  unfold lower. induction s as [|c s IH]; [reflexivity|].
  simpl. rewrite lower_char_space. destruct (is_space c); [exact IH | reflexivity].
Qed.

Lemma rstrip_lower s : rstrip (lower s) = lower (rstrip s).
Proof.
  unfold lower. induction s as [|c s IH]; [reflexivity|].
  simpl. rewrite IH, lower_char_space.
  destruct (rstrip s); simpl; [destruct (is_space c)|]; reflexivity.
Qed.

Lemma strip_lower s : strip (lower s) = lower (strip s).
Proof. unfold strip. rewrite lstrip_lower, rstrip_lower. reflexivity. Qed.

Lemma lower_char_plus c : Ascii.eqb (lower_char c) "+" = Ascii.eqb c "+".
Proof. destruct c as [[] [] [] [] [] [] [] []]; reflexivity. Qed.

Lemma before_plus_no_plus s : no_plus (before_plus s) = true.
Proof.
  unfold no_plus. induction s as [|c s IH]; [reflexivity|].
  simpl. destruct (Ascii.eqb c "+") eqn:Hc; [reflexivity|].
  simpl. rewrite Hc. exact IH.
Qed.

Lemma before_plus_fixed s : no_plus s = true -> before_plus s = s.
Proof.
  unfold no_plus. induction s as [|c s IH]; [reflexivity|].
  simpl. intros [Hc Hs]%andb_true_iff. apply negb_true_iff in Hc.
  rewrite Hc, (IH Hs). reflexivity.
Qed.

Lemma lstrip_no_plus s : no_plus s = true -> no_plus (lstrip s) = true.
Proof.
  unfold no_plus. induction s as [|c s IH]; [reflexivity|].
  intros Hs. simpl. destruct (is_space c); [|exact Hs].
  simpl in Hs. apply andb_true_iff in Hs as [_ Hs]. exact (IH Hs).
Qed.

Lemma rstrip_no_plus s : no_plus s = true -> no_plus (rstrip s) = true.
Proof.
  unfold no_plus. induction s as [|c s IH]; [reflexivity|].
  simpl. intros [Hc Hs]%andb_true_iff. specialize (IH Hs).
  destruct (rstrip s) as [|d r].
  - destruct (is_space c); [reflexivity|]. simpl. rewrite Hc. reflexivity.
  - simpl in *. rewrite Hc. exact IH.
Qed.

Lemma lower_no_plus s : no_plus (lower s) = no_plus s.
Proof.
  unfold no_plus, lower. induction s as [|c s IH]; [reflexivity|].
  simpl. rewrite lower_char_plus, IH. reflexivity.
Qed.

Lemma before_plus_app (a b : string) :
  no_plus a = true -> before_plus (a +:+ String "+" b) = a.
Proof.
  unfold no_plus. induction a as [|c a IH]; [reflexivity|].
  rewrite app_cons. simpl. intros [Hc Ha]%andb_true_iff.
  apply negb_true_iff in Hc. rewrite Hc, (IH Ha). reflexivity.
Qed.

Lemma lower_author_char s : no_plus s = true -> sforall author_char (lower s) = true.
Proof.
  unfold no_plus, lower, author_char. induction s as [|c s IH]; [reflexivity|].
  simpl. intros [Hc Hs]%andb_true_iff.
  rewrite lower_char_plus, Hc, lower_char_idem, Ascii.eqb_refl, (IH Hs).
  reflexivity.
Qed.

(** X4: the primary author is the text before the first [+], in lower case
    and without surrounding whitespace: whatever follows the first [+] is
    ignored, the result holds no [+], and extracting the primary author of
    a primary author changes nothing. *)
Theorem get_primary_author_properties (x : option string) (a b : string) :
  let p := get_primary_author x in
  sforall author_char p = true
  /\ lstrip p = p /\ rstrip p = p
  /\ get_primary_author (Some p) = p
  /\ (no_plus a = true ->
        get_primary_author (Some (a +:+ String "+" b)) = get_primary_author (Some a)).
Proof.
  cbv zeta. split; [|split; [|split; [|split]]].
  - destruct x as [s|]; [|reflexivity]. simpl.
    apply lower_author_char. unfold strip.
    apply rstrip_no_plus, lstrip_no_plus, before_plus_no_plus.
  - destruct x as [s|]; [|reflexivity]. simpl.
    rewrite <- strip_lower. apply lstrip_strip.
  - destruct x as [s|]; [|reflexivity]. simpl.
    rewrite <- strip_lower. apply rstrip_idem.
  - destruct x as [s|]; [|reflexivity]. simpl.
    rewrite before_plus_fixed.
    + rewrite strip_lower, strip_idem, lower_idem. reflexivity.
    + rewrite lower_no_plus. unfold strip.
      apply rstrip_no_plus, lstrip_no_plus, before_plus_no_plus.
  - intros Ha. simpl. rewrite (before_plus_app a b Ha), (before_plus_fixed a Ha).
    reflexivity.
Qed.

Lemma get_primary_author_properties_witness :
  get_primary_author (Some ("Neil Gaiman " +:+ String "+" " Terry Pratchett"))
  = get_primary_author (Some "Neil Gaiman ").
Proof.
  apply (get_primary_author_properties None "Neil Gaiman " " Terry Pratchett").
  reflexivity.
Defined.

(* ===================================================================== *)
(** * Further properties of the category sets *)

Lemma column_set_same_rows column mask (df df' : DataFrame) :
  same_rows df df' -> column_set column mask df = column_set column mask df'.
Proof.
  intros Hsame. apply set_eq. intros x. rewrite !elem_of_column_set.
  split; intros (r & Hin & Hm & Hx); exists r; (split; [apply Hsame, Hin | auto]).
Qed.

Lemma drop_deleted_same_rows (df df' : DataFrame) :
  same_rows df df' -> same_rows (drop_deleted df) (drop_deleted df').
Proof.
  intros Hsame r. unfold drop_deleted. rewrite !filter_In, (Hsame r). reflexivity.
Qed.

Lemma books_of_same_rows (df df' : DataFrame) :
  same_rows df df' -> books_of df = books_of df'.
Proof.
  intros Hsame. unfold books_of.
  rewrite !(column_set_same_rows _ _ df df' Hsame). reflexivity.
Qed.

Lemma authors_of_same_rows (df df' : DataFrame) :
  same_rows df df' -> authors_of df = authors_of df'.
Proof.
  intros Hsame. unfold authors_of.
  rewrite !(column_set_same_rows _ _ df df' Hsame). reflexivity.
Qed.

(** X5: the score, the metrics, the diagnosis and the score breakdown depend
    on which rows a reading list holds, not on their order nor on how often
    a row is repeated. *)
Theorem calculate_compatibility_same_rows {F} {num : Number F}
    (person1_name person2_name : string) (df1 df1' df2 df2' : DataFrame) :
  same_rows df1 df1' -> same_rows df2 df2' ->
  calculate_compatibility (F:=F) person1_name df1 person2_name df2
  = calculate_compatibility person1_name df1' person2_name df2'.
Proof.
  intros H1%drop_deleted_same_rows H2%drop_deleted_same_rows.
  unfold calculate_compatibility.
  rewrite (books_of_same_rows _ _ H1), (books_of_same_rows _ _ H2),
    (authors_of_same_rows _ _ H1), (authors_of_same_rows _ _ H2).
  reflexivity.
Qed.

Lemma calculate_compatibility_same_rows_witness :
  let a := mkBook (Some "Dune") (Some "Frank Herbert") (Some "finished") in
  let b := mkBook (Some "Emma") (Some "Jane Austen") (Some "want_to_read") in
  calculate_compatibility (F:=float) "ann" [a; b] "bob" [b]
  = calculate_compatibility "ann" [b; a; b] "bob" [b; b].
Proof.
  intros a b.
  apply (calculate_compatibility_same_rows "ann" "bob" [a; b] [b; a; b] [b] [b; b]);
    intros r; simpl; tauto.
Defined.

Lemma status_masks_currently_reading (t a : option string) :
  let reading := mkBook t a (Some "currently_reading") in
  let done := mkBook t a (Some "finished") in
  is_finished reading = is_finished done
  /\ is_want_to_read reading = is_want_to_read done
  /\ is_did_not_finish reading = is_did_not_finish done
  /\ status_eq "deleted" reading = status_eq "deleted" done.
Proof. repeat split; reflexivity. Qed.

(** X6: a row with status [currently_reading] counts exactly as the same
    row with status [finished]. *)
Theorem currently_reading_counts_as_finished {F} {num : Number F}
    (person1_name person2_name : string) (l1 l2 other : DataFrame)
    (t a : option string) :
  let reading := l1 ++ mkBook t a (Some "currently_reading") :: l2 in
  let done := l1 ++ mkBook t a (Some "finished") :: l2 in
  books_of (drop_deleted reading) = books_of (drop_deleted done)
  /\ authors_of (drop_deleted reading) = authors_of (drop_deleted done)
  /\ calculate_compatibility (F:=F) person1_name reading person2_name other
     = calculate_compatibility person1_name done person2_name other
  /\ calculate_compatibility (F:=F) person1_name other person2_name reading
     = calculate_compatibility person1_name other person2_name done.
Proof.
  intros reading done.
  assert (Hb : books_of (drop_deleted reading) = books_of (drop_deleted done)).
  { subst reading done. rewrite !drop_deleted_insert. simpl.
    unfold books_of. rewrite !column_set_insert. reflexivity. }
  assert (Ha : authors_of (drop_deleted reading) = authors_of (drop_deleted done)).
  { subst reading done. rewrite !drop_deleted_insert. simpl.
    unfold authors_of. rewrite !column_set_insert. reflexivity. }
  split; [exact Hb|]. split; [exact Ha|].
  unfold calculate_compatibility. rewrite Hb, Ha. split; reflexivity.
Qed.

Lemma author_sets_exclude_empty (df : DataFrame) :
  ("" ∉ authors_all (authors_of df)) /\ ("" ∉ authors_finished (authors_of df)).
Proof.
  split; simpl; rewrite elem_of_difference, elem_of_singleton; tauto.
Qed.

Lemma size_inter_le_l (A B : gset string) : size (A ∩ B) <= size A.
Proof. apply subseteq_size, intersection_subseteq_l. Qed.

Lemma size_inter_le_r (A B : gset string) : size (A ∩ B) <= size B.
Proof. apply subseteq_size, intersection_subseteq_r. Qed.

Lemma elem_size_pos (X : gset string) (x : string) : x ∈ X -> 1 <= size X.
Proof.
  intros Hx. destruct (size X) eqn:Hsize; [|lia].
  apply size_empty_inv in Hsize. rewrite Hsize in Hx.
  destruct (not_elem_of_empty _ Hx).
Qed.

(** X7: rows without an author never make a shared author, while rows
    without a title do make a shared book: the empty string is removed from
    the author sets and kept in the title sets.  So two readers who each
    finished a book with a missing or blank title share one finished book. *)
Theorem blank_authors_and_blank_titles (df1 df2 : DataFrame) (r1 r2 : BookRecord) :
  (("" ∉ authors_all (authors_of (drop_deleted df1)))
   /\ ("" ∉ authors_finished (authors_of (drop_deleted df1)))
   /\ ("" ∉ (authors_finished (authors_of (drop_deleted df1))
             ∩ authors_finished (authors_of (drop_deleted df2)))))
  /\ (In r1 df1 -> is_finished r1 = true -> normalized_title r1 = "" ->
      In r2 df2 -> is_finished r2 = true -> normalized_title r2 = "" ->
      "" ∈ (finished (books_of (drop_deleted df1))
            ∩ finished (books_of (drop_deleted df2)))
      /\ 1 <= shared_books_finished
                (compute_metrics (books_of (drop_deleted df1)) (books_of (drop_deleted df2))
                   (authors_of (drop_deleted df1)) (authors_of (drop_deleted df2)))).
Proof.
  split.
  - destruct (author_sets_exclude_empty (drop_deleted df1)) as [Hall Hfin].
    split; [exact Hall|]. split; [exact Hfin|].
    rewrite elem_of_intersection. tauto.
  - intros Hin1 Hf1 Ht1 Hin2 Hf2 Ht2.
    assert (Hkept : forall df r, In r df -> is_finished r = true ->
                       In r (drop_deleted df)).
    { intros df r Hin Hf. apply filter_In. split; [exact Hin|].
      unfold is_finished, status_isin, status_eq in *. simpl in *.
      destruct (Status r) as [s|]; [|discriminate].
      destruct (String.eqb_spec s "deleted") as [->|]; [discriminate | reflexivity]. }
    assert (Hmem : "" ∈ (finished (books_of (drop_deleted df1))
                         ∩ finished (books_of (drop_deleted df2)))).
    { apply elem_of_intersection. split; apply elem_of_column_set;
        [exists r1 | exists r2]; auto. }
    split; [exact Hmem|]. simpl.
    exact (elem_size_pos _ _ Hmem).
Qed.

Lemma blank_authors_and_blank_titles_witness :
  let r := mkBook None (Some "Frank Herbert") (Some "finished") in
  let q := mkBook (Some "?!") None (Some "currently_reading") in
  "" ∈ (finished (books_of (drop_deleted [r])) ∩ finished (books_of (drop_deleted [q]))).
Proof.
  intros r q.
  apply (blank_authors_and_blank_titles [r] [q] r q);
    first [reflexivity | left; reflexivity].
Defined.

(** X8: the counts in the metrics are consistent: the shared finished books
    are at most either reader's finished books, the cross-recommendations
    and the disagreements are at most the two readers' finished books
    together, and the shared to-read titles are at most either to-read
    list. *)
Theorem metrics_consistent {F} {num : Number F}
    (person1_name person2_name : string) (person1_df person2_df : DataFrame) :
  let r := calculate_compatibility (F:=F)
             person1_name person1_df person2_name person2_df in
  let m := metrics r in
  shared_books_finished m <= Nat.min (person1_books_finished m) (person2_books_finished m)
  /\ metric_cross_recommendations m <= person1_books_finished m + person2_books_finished m
  /\ disagreements m <= person1_books_finished m + person2_books_finished m
  /\ metric_shared_tbr m <= size (want_to_read (books_of (drop_deleted person1_df)))
  /\ metric_shared_tbr m <= size (want_to_read (books_of (drop_deleted person2_df))).
Proof.
  cbv zeta. unfold calculate_compatibility. cbn [metrics].
  unfold compute_metrics.
  cbn [shared_books_finished person1_books_finished person2_books_finished
         metric_cross_recommendations disagreements metric_shared_tbr].
  set (b1 := books_of (drop_deleted person1_df)).
  set (b2 := books_of (drop_deleted person2_df)).
  pose proof (size_inter_le_l (finished b1) (finished b2)).
  pose proof (size_inter_le_r (finished b1) (finished b2)).
  pose proof (size_inter_le_l (finished b1) (want_to_read b2)).
  pose proof (size_inter_le_l (finished b2) (want_to_read b1)).
  pose proof (size_inter_le_l (finished b1) (did_not_finish b2)).
  pose proof (size_inter_le_l (finished b2) (did_not_finish b1)).
  pose proof (size_inter_le_l (want_to_read b1) (want_to_read b2)).
  pose proof (size_inter_le_r (want_to_read b1) (want_to_read b2)).
  repeat split; lia.
Qed.

Lemma author_count_pos (df : DataFrame) (author : string) :
  1 <= author_count df author
  <-> exists r, In r df /\ is_finished r = true /\ primary_author r = author.
Proof.
  unfold author_count. split.
  - destruct (List.filter _ (List.filter is_finished df)) as [|r l] eqn:Hl;
      [simpl; lia|].
    intros _. assert (Hin : In r (r :: l)) by (left; reflexivity).
    rewrite <- Hl in Hin. apply filter_In in Hin as [Hin Heq].
    apply filter_In in Hin as [Hin Hf]. apply String.eqb_eq in Heq. eauto.
  - intros (r & Hin & Hf & Ha).
    assert (Hin' : In r (List.filter (fun r => String.eqb (primary_author r) author)
                           (List.filter is_finished df))).
    { apply filter_In. split; [apply filter_In; auto|]. apply String.eqb_eq, Ha. }
    destruct (List.filter _ (List.filter is_finished df)); [destruct Hin'|].
    simpl. lia.
Qed.

(** X9: every author shared between the two finished-author sets has at
    least one finished book in each list, so the combined count of an entry
    of the shared-author table is at least 2; conversely an author other
    than the empty string with a finished book in both lists is a shared
    author. *)
Theorem shared_author_counts_positive (person1_df person2_df : DataFrame)
    (author : string) :
  let df1 := drop_deleted person1_df in
  let df2 := drop_deleted person2_df in
  let shared_authors_finished :=
    authors_finished (authors_of df1) ∩ authors_finished (authors_of df2) in
  let entry := shared_author_entry df1 df2 author in
  (author ∈ shared_authors_finished ->
     1 <= person1_count entry /\ 1 <= person2_count entry /\ 2 <= total entry)
  /\ (author <> "" -> 1 <= person1_count entry -> 1 <= person2_count entry ->
        author ∈ shared_authors_finished)
  /\ total entry = person1_count entry + person2_count entry.
Proof.
  cbv zeta. unfold shared_author_entry. cbn [person1_count person2_count total].
  split; [|split; [|reflexivity]].
  - intros [H1 H2]%elem_of_intersection.
    simpl in H1, H2. apply elem_of_difference in H1 as [H1 _], H2 as [H2 _].
    apply elem_of_column_set in H1, H2.
    apply author_count_pos in H1, H2. lia.
  - intros Hne H1 H2. apply author_count_pos in H1, H2.
    apply elem_of_intersection. simpl.
    rewrite !elem_of_difference, !elem_of_singleton, !elem_of_column_set. tauto.
Qed.

Lemma shared_author_counts_positive_witness :
  let r := mkBook (Some "Dune") (Some "Frank Herbert + Brian Herbert") (Some "finished") in
  let q := mkBook (Some "Dune Messiah") (Some "frank herbert") (Some "currently_reading") in
  2 <= total (shared_author_entry (drop_deleted [r]) (drop_deleted [q; q]) "frank herbert").
Proof.
  intros r q.
  apply (shared_author_counts_positive [r] [q; q] "frank herbert").
  vm_compute. reflexivity.
Defined.

(* ===================================================================== *)
(** * Further properties of the scores, in exact arithmetic *)

Section RealScores.
Local Open Scope R_scope.

Ltac real_scores :=
  rewrite ?R_py_min, ?real_decimal_1, ?real_decimal_2, ?real_of_nat;
  cbn [num_add num_sub num_mul num_div num_neg num_abs num_sqrt real_number of_int];
  rewrite ?ten_tenths.

Lemma ratio_self (n : nat) : (0 < n)%nat -> INR n / INR n = 1.
Proof. intros Hn%lt_0_INR. unfold Rdiv. apply Rinv_r. lra. Qed.

Lemma size_inter_le_min (A B : gset string) :
  (size (A ∩ B) <= Nat.min (size A) (size B))%nat.
Proof.
  pose proof (size_inter_le_l A B). pose proof (size_inter_le_r A B). lia.
Qed.

(** X10: the shared-finished component is the share of the smaller finished
    list that both readers finished, times 0.35; the cap [min(1.0, .)] of
    the code never comes into play, since the shared books cannot outnumber
    the smaller list. *)
Theorem shared_finished_uncapped (person1_df person2_df : DataFrame) :
  let books1 := books_of (drop_deleted person1_df) in
  let books2 := books_of (drop_deleted person2_df) in
  let shared := size (finished books1 ∩ finished books2) in
  let smaller := Nat.min (size (finished books1)) (size (finished books2)) in
  (shared <= smaller)%nat
  /\ shared_finished (scores_of_frames (F:=R) person1_df person2_df)
     = if (0 <? smaller)%nat then INR shared / INR smaller * (35 / 100) else 0.
Proof.
  intros books1 books2 shared smaller.
  assert (Hle : (shared <= smaller)%nat) by apply size_inter_le_min.
  split; [exact Hle|].
  unfold scores_of_frames, compute_scores. cbn [shared_finished].
  fold books1 books2. fold smaller. fold shared.
  destruct (Nat.ltb_spec 0 smaller) as [Hpos|Hzero].
  - assert (Hsum : (0 <? size (finished books1) + size (finished books2))%nat = true)
      by (apply Nat.ltb_lt; lia).
    rewrite Hsum. real_scores.
    rewrite Rmin_right; [reflexivity|]. apply ratio_le_1; assumption.
  - destruct (0 <? size (finished books1) + size (finished books2))%nat;
      [|reflexivity].
    real_scores. rewrite Rmin_right; lra.
Qed.

(** X11: the cross-recommendation component is the number of
    cross-recommendations divided by the number of finished books of both
    readers, capped at 0.10; it is 0 when nobody finished a book. *)
Theorem cross_recommendations_capped_fraction (person1_df person2_df : DataFrame) :
  let books1 := books_of (drop_deleted person1_df) in
  let books2 := books_of (drop_deleted person2_df) in
  let cross := (size (finished books1 ∩ want_to_read books2)
                + size (finished books2 ∩ want_to_read books1))%nat in
  let total_possible := (size (finished books1) + size (finished books2))%nat in
  cross_recommendations (scores_of_frames (F:=R) person1_df person2_df)
  = if (0 <? total_possible)%nat
    then Rmin (10 / 100) (INR cross / INR total_possible)
    else 0.
Proof.
  intros books1 books2 cross total_possible.
  unfold scores_of_frames, compute_scores. cbn [cross_recommendations].
  fold books1 books2. fold cross. fold total_possible.
  destruct (Nat.ltb_spec 0 total_possible) as [Hpos|]; [|reflexivity].
  real_scores. apply lt_0_INR in Hpos.
  assert (Hc : 0 <= INR cross) by apply pos_INR.
  set (c := INR cross) in *. set (t := INR total_possible) in *.
  assert (Heq : c / (t * (1 / 10)) = 10 * (c / t)) by (field; lra).
  rewrite Heq. unfold Rmin.
  destruct (Rle_dec 1 (10 * (c / t))), (Rle_dec (10 / 100) (c / t)); lra.
Qed.

Lemma real_disagreement_penalty (person1_df person2_df : DataFrame) :
  disagreement_penalty (scores_of_frames (F:=R) person1_df person2_df)
  = - Rmin (15 / 100)
        (INR (described_disagreements (books_of (drop_deleted person1_df))
                (books_of (drop_deleted person2_df))) * (2 / 100)).
Proof.
  unfold scores_of_frames, compute_scores, described_disagreements.
  cbn [disagreement_penalty]. real_scores. reflexivity.
Qed.

(** X12: each disagreement costs 0.02 up to seven of them; from eight
    disagreements on the penalty stays at 0.15. *)
Theorem disagreement_penalty_cap (person1_df person2_df : DataFrame) :
  let d := described_disagreements (books_of (drop_deleted person1_df))
             (books_of (drop_deleted person2_df)) in
  let penalty := disagreement_penalty (scores_of_frames (F:=R) person1_df person2_df) in
  ((d <= 7)%nat -> penalty = - (INR d * (2 / 100)))
  /\ ((8 <= d)%nat -> penalty = - (15 / 100)).
Proof.
  intros d penalty.
  assert (Hp : penalty = - Rmin (15 / 100) (INR d * (2 / 100)))
    by apply real_disagreement_penalty.
  rewrite Hp. split.
  - intros Hd%le_INR. simpl in Hd. rewrite Rmin_right; lra.
  - intros Hd%le_INR. simpl in Hd. rewrite Rmin_left; lra.
Qed.

Lemma disagreement_penalty_cap_witness :
  disagreement_penalty
    (scores_of_frames (F:=R) (shelf "finished" 3) (shelf "did_not_finish" 3))
  = - (INR 3 * (2 / 100)).
Proof.
  apply (disagreement_penalty_cap (shelf "finished" 3) (shelf "did_not_finish" 3)).
  vm_compute. lia.
Defined.

Lemma inter_empty_of_subsets (X Y A B : gset string) :
  X ⊆ A -> Y ⊆ B -> A ∩ B = ∅ -> X ∩ Y = ∅.
Proof.
  intros HX HY Hempty. apply leibniz_equiv, equiv_empty.
  intros x [Hx Hy]%elem_of_intersection.
  assert (Hin : x ∈ A ∩ B) by (apply elem_of_intersection; auto).
  rewrite Hempty in Hin. exact Hin.
Qed.

Lemma zero_ratio (x : R) : INR 0 / x = 0.
Proof. unfold Rdiv. simpl. apply Rmult_0_l. Qed.

(** X13: two readers with no title and no author in common get nothing but
    the reading-behavior component: every other component is 0, the total
    is at most 0.05 and the reported score at most 5.0. *)
Theorem nothing_in_common (person1_name person2_name : string)
    (person1_df person2_df : DataFrame) :
  let books1 := books_of (drop_deleted person1_df) in
  let books2 := books_of (drop_deleted person2_df) in
  let authors1 := authors_of (drop_deleted person1_df) in
  let authors2 := authors_of (drop_deleted person2_df) in
  let scores := scores_of_frames (F:=R) person1_df person2_df in
  let r := calculate_compatibility (F:=R)
             person1_name person1_df person2_name person2_df in
  all books1 ∩ all books2 = ∅ ->
  authors_all authors1 ∩ authors_all authors2 = ∅ ->
  shared_finished scores = 0
  /\ shared_authors scores = 0
  /\ cross_recommendations scores = 0
  /\ shared_tbr scores = 0
  /\ disagreement_penalty scores = 0
  /\ total_score scores = reading_behavior scores
  /\ 0 <= total_score scores <= 5 / 100
  /\ 0 <= compatibility_score r <= 5.
Proof.
  intros books1 books2 authors1 authors2 scores r Hbooks Hauthors.
  pose proof (fun m1 m2 =>
    inter_empty_of_subsets _ _ _ _
      (column_set_subseteq normalized_title m1 (drop_deleted person1_df))
      (column_set_subseteq normalized_title m2 (drop_deleted person2_df))
      Hbooks) as Hdis12.
  pose proof (fun m1 m2 =>
    inter_empty_of_subsets _ _ _ _
      (column_set_subseteq normalized_title m2 (drop_deleted person2_df))
      (column_set_subseteq normalized_title m1 (drop_deleted person1_df))
      (eq_trans (intersection_comm_L _ _) Hbooks)) as Hdis21.
  assert (Hsf : shared_finished scores = 0).
  { subst scores. unfold scores_of_frames, compute_scores. cbn [shared_finished].
    fold books1 books2. unfold books1, books2, books_of. cbn [finished].
    rewrite Hdis12, size_empty.
    destruct (0 <? _ + _)%nat; [|reflexivity].
    real_scores. destruct (0 <? _)%nat; rewrite ?zero_ratio, Rmin_right; lra. }
  assert (Hsa : shared_authors scores = 0).
  { subst scores. unfold scores_of_frames, compute_scores. cbn [shared_authors].
    fold authors1 authors2. rewrite Hauthors, size_empty.
    destruct (0 <? _ + _)%nat; [|reflexivity].
    real_scores. rewrite zero_ratio, sqrt_0. lra. }
  assert (Hcr : cross_recommendations scores = 0).
  { subst scores. unfold scores_of_frames, compute_scores.
    cbn [cross_recommendations]. unfold books_of. cbn [finished want_to_read].
    rewrite Hdis12, Hdis21, size_empty.
    destruct (0 <? _ + _)%nat; [|reflexivity].
    real_scores. rewrite zero_ratio, Rmin_right; lra. }
  assert (Htbr : shared_tbr scores = 0).
  { subst scores. unfold scores_of_frames, compute_scores. cbn [shared_tbr].
    unfold books_of. cbn [want_to_read]. rewrite Hdis12, size_empty.
    destruct (0 <? _ + _)%nat; [|reflexivity].
    real_scores. rewrite zero_ratio. lra. }
  assert (Hpen : disagreement_penalty scores = 0).
  { subst scores. unfold scores_of_frames, compute_scores.
    cbn [disagreement_penalty]. unfold books_of. cbn [finished did_not_finish].
    rewrite Hdis12, Hdis21, size_empty. real_scores.
    simpl INR. rewrite Rmin_right; lra. }
  assert (Hrb : 0 <= reading_behavior scores <= 5 / 100)
    by exact (real_reading_behavior_bounds books1 books2 authors1 authors2
                (column_set_subseteq _ _ _) (column_set_subseteq _ _ _)).
  assert (Htotal : total_score scores = reading_behavior scores).
  { unfold total_score, py_sum, score_values.
    cbn [fold_left num_add real_number of_int].
    rewrite Hsf, Hsa, Hcr, Htbr, Hpen. lra. }
  repeat (split; [assumption|]).
  assert (Hrange : 0 <= total_score scores <= 5 / 100)
    by (rewrite Htotal; exact Hrb).
  split; [exact Hrange|].
  subst r. unfold calculate_compatibility. cbn [compatibility_score].
  fold (scores_of_frames (F:=R) person1_df person2_df). fold scores.
  cbn [num_round num_mul of_int real_number].
  replace 0 with (IZR 0 / 10) by lra. replace 5 with (IZR 50 / 10) by lra.
  apply (R_round1_bounds 0 50). lra.
Qed.

Lemma nothing_in_common_witness :
  shared_finished
    (scores_of_frames (F:=R)
       [mkBook (Some "Dune") (Some "Frank Herbert") (Some "finished")]
       [mkBook (Some "Emma") (Some "Jane Austen") (Some "finished")]) = 0.
Proof.
  apply (nothing_in_common "ann" "bob"
           [mkBook (Some "Dune") (Some "Frank Herbert") (Some "finished")]
           [mkBook (Some "Emma") (Some "Jane Austen") (Some "finished")]);
    vm_compute; reflexivity.
Defined.

(** X14: a reading list compared with itself does not have to score 100%:
    shared_finished is 0.35, shared_authors 0.30 and shared_tbr 0.20 only
    when the list has a finished book, an author and a to-read title,
    reading_behavior is 0.05 (0.035 for an empty list), and unless some
    title is both finished and on the to-read list the cross-recommendation
    component is 0, so that the total is at most 0.90. *)
Theorem self_comparison (person_df : DataFrame) :
  let books := books_of (drop_deleted person_df) in
  let authors := authors_of (drop_deleted person_df) in
  let scores := scores_of_frames (F:=R) person_df person_df in
  shared_finished scores = (if (0 <? size (finished books))%nat then 35 / 100 else 0)
  /\ shared_authors scores = (if (0 <? size (authors_all authors))%nat then 30 / 100 else 0)
  /\ shared_tbr scores = (if (0 <? size (want_to_read books))%nat then 20 / 100 else 0)
  /\ reading_behavior scores = (if (0 <? size (all books))%nat then 5 / 100 else 35 / 1000)
  /\ (finished books ∩ want_to_read books = ∅ ->
        cross_recommendations scores = 0 /\ total_score scores <= 90 / 100).
Proof.
  intros books authors scores.
  assert (Hsf : shared_finished scores
                = if (0 <? size (finished books))%nat then 35 / 100 else 0).
  { subst scores. unfold scores_of_frames, compute_scores. cbn [shared_finished].
    fold books. rewrite intersection_idemp_L, Nat.min_id.
    destruct (Nat.ltb_spec 0 (size (finished books))) as [Hpos|Hzero].
    - replace (0 <? size (finished books) + size (finished books))%nat with true
        by (symmetry; apply Nat.ltb_lt; lia).
      real_scores. rewrite (ratio_self _ Hpos), Rmin_left; lra.
    - replace (0 <? size (finished books) + size (finished books))%nat with false
        by (symmetry; apply Nat.ltb_ge; lia).
      reflexivity. }
  assert (Hsa : shared_authors scores
                = if (0 <? size (authors_all authors))%nat then 30 / 100 else 0).
  { subst scores. unfold scores_of_frames, compute_scores. cbn [shared_authors].
    fold authors. rewrite intersection_idemp_L, union_idemp_L.
    destruct (Nat.ltb_spec 0 (size (authors_all authors))) as [Hpos|Hzero].
    - replace (0 <? size (authors_all authors) + size (authors_all authors))%nat
        with true by (symmetry; apply Nat.ltb_lt; lia).
      real_scores. rewrite (ratio_self _ Hpos), sqrt_1. lra.
    - replace (0 <? size (authors_all authors) + size (authors_all authors))%nat
        with false by (symmetry; apply Nat.ltb_ge; lia).
      reflexivity. }
  assert (Htbr : shared_tbr scores
                 = if (0 <? size (want_to_read books))%nat then 20 / 100 else 0).
  { subst scores. unfold scores_of_frames, compute_scores. cbn [shared_tbr].
    fold books. rewrite intersection_idemp_L, union_idemp_L.
    destruct (Nat.ltb_spec 0 (size (want_to_read books))) as [Hpos|Hzero].
    - replace (0 <? size (want_to_read books) + size (want_to_read books))%nat
        with true by (symmetry; apply Nat.ltb_lt; lia).
      real_scores. rewrite (ratio_self _ Hpos). lra.
    - replace (0 <? size (want_to_read books) + size (want_to_read books))%nat
        with false by (symmetry; apply Nat.ltb_ge; lia).
      reflexivity. }
  assert (Hrb : reading_behavior scores
                = if (0 <? size (all books))%nat then 5 / 100 else 35 / 1000).
  { subst scores. unfold scores_of_frames, compute_scores. cbn [reading_behavior].
    fold books. rewrite Nat.min_id, Nat.max_id. real_scores.
    rewrite Rminus_diag, Rabs_R0.
    destruct (Nat.ltb_spec 0 (size (all books))) as [Hpos|Hzero].
    - rewrite (ratio_self _ Hpos). lra.
    - lra. }
  repeat (split; [assumption|]).
  intros Hfw.
  assert (Hcr : cross_recommendations scores = 0).
  { subst scores. unfold scores_of_frames, compute_scores.
    cbn [cross_recommendations]. fold books. rewrite Hfw, size_empty.
    destruct (0 <? _ + _)%nat; [|reflexivity].
    real_scores. rewrite zero_ratio, Rmin_right; lra. }
  split; [exact Hcr|].
  assert (Hp : - (15 / 100) <= disagreement_penalty scores <= 0)
    by exact (real_disagreement_penalty_bounds books books authors authors).
  unfold total_score, py_sum, score_values.
  cbn [fold_left num_add real_number of_int].
  rewrite Hsf, Hsa, Hcr, Htbr, Hrb.
  destruct (0 <? size (finished books))%nat, (0 <? size (authors_all authors))%nat,
    (0 <? size (want_to_read books))%nat, (0 <? size (all books))%nat; lra.
Qed.

Lemma self_comparison_witness :
  cross_recommendations (scores_of_frames (F:=R) five_finished five_finished) = 0.
Proof.
  apply (self_comparison five_finished). vm_compute. reflexivity.
Defined.
End RealScores.

(* ===================================================================== *)
(** * Levels, summary rows and repeated sorting *)

Section LevelOrder.
Context {F : Type} {num : Number F}.
Hypothesis leb_trans : forall a b c : F,
  num_leb a b = true -> num_leb b c = true -> num_leb a c = true.

Lemma level_of_monotone (s1 s2 : F) :
  num_leb s1 s2 = true -> level_rank (level_of s1) <= level_rank (level_of s2).
Proof.
  intros H12. unfold level_of, num_geb.
  destruct (num_leb (decimal 70 2) s1) eqn:H70.
  { rewrite (leb_trans _ _ _ H70 H12). reflexivity. }
  destruct (num_leb (decimal 50 2) s1) eqn:H50.
  { rewrite (leb_trans _ _ _ H50 H12).
    destruct (num_leb (decimal 70 2) s2); simpl; lia. }
  destruct (num_leb (decimal 30 2) s1) eqn:H30.
  { rewrite (leb_trans _ _ _ H30 H12).
    destruct (num_leb (decimal 70 2) s2), (num_leb (decimal 50 2) s2); simpl; lia. }
  destruct (num_leb (decimal 15 2) s1) eqn:H15.
  { rewrite (leb_trans _ _ _ H15 H12).
    destruct (num_leb (decimal 70 2) s2), (num_leb (decimal 50 2) s2),
      (num_leb (decimal 30 2) s2); simpl; lia. }
  simpl. lia.
Qed.

End LevelOrder.

Lemma SFleb_trans (a b c : spec_float) :
  SFleb a b = true -> SFleb b c = true -> SFleb a c = true.
Proof.
  destruct a as [sa|sa| |sa ma ea], b as [sb|sb| |sb mb eb],
    c as [sc|sc| |sc mc ec]; sf_compare_cases.
Qed.

Lemma float_leb_trans (a b c : float) :
  PrimFloat.leb a b = true -> PrimFloat.leb b c = true -> PrimFloat.leb a c = true.
Proof. rewrite !FloatAxioms.leb_spec. apply SFleb_trans. Qed.

Lemma R_leb_trans (a b c : R) :
  R_leb a b = true -> R_leb b c = true -> R_leb a c = true.
Proof.
  unfold R_leb. destruct (Rle_dec a b), (Rle_dec b c), (Rle_dec a c);
    try reflexivity; try discriminate. lra.
Qed.

(** X15: a higher total never gets a lower level, in binary64 and in exact
    arithmetic. *)
Theorem level_monotone :
  (forall s1 s2 : float,
     PrimFloat.leb s1 s2 = true ->
     level_rank (level_of s1) <= level_rank (level_of s2))
  /\ (forall s1 s2 : R,
        (s1 <= s2)%R -> level_rank (level_of s1) <= level_rank (level_of s2)).
Proof.
  split.
  - intros s1 s2. apply (level_of_monotone (num:=float_number) float_leb_trans).
  - intros s1 s2 H12. apply (level_of_monotone (num:=real_number) R_leb_trans).
    simpl. unfold R_leb. destruct (Rle_dec s1 s2); [reflexivity | contradiction].
Qed.

Lemma level_monotone_witness :
  level_rank (level_of (F:=float) (decimal 20 2))
  <= level_rank (level_of (F:=float) (decimal 65 2)).
Proof. apply (proj1 level_monotone). vm_compute. reflexivity. Defined.

(* --------------------------------------------------------------------- *)
(** ** The diagnosis column of the summary *)

Lemma before_dot_app (a b : string) :
  no_dot a = true -> before_dot (a +:+ String "." b) = a.
Proof.
  unfold no_dot. induction a as [|c a IH]; [reflexivity|].
  rewrite app_cons. simpl. intros [Hc Ha]%andb_true_iff.
  apply negb_true_iff in Hc. rewrite Hc, (IH Ha). reflexivity.
Qed.

Lemma no_dot_app (a b : string) : no_dot (a +:+ b) = no_dot a && no_dot b.
Proof. apply sforall_app. Qed.

Lemma uint_string_no_dot (d : Decimal.uint) :
  no_dot (NilEmpty.string_of_uint d) = true.
Proof. induction d; simpl; try reflexivity; exact IHd. Qed.

Lemma nat_str_no_dot (n : nat) : no_dot (nat_str n) = true.
Proof.
  unfold nat_str, NilZero.string_of_uint.
  destruct (Nat.to_uint n); try reflexivity; apply uint_string_no_dot.
Qed.

Lemma diagnosis_stub_no_dot (l : Level) (negative : bool) (tenths : Z) :
  no_dot (diagnosis_stub l negative tenths) = true.
Proof.
  unfold diagnosis_stub. rewrite !no_dot_app, nat_str_no_dot.
  destruct l, negative; reflexivity.
Qed.

Lemma join_head (h : string) (ps : list string) :
  exists tail, join " " (h :: ps) = h +:+ tail.
Proof.
  destruct ps as [|p ps].
  - exists "". rewrite app_empty_r. reflexivity.
  - exists (" " +:+ join " " (p :: ps)). apply join_cons.
Qed.

Lemma summary_diagnosis_stub {F} {num : Number F}
    (person1_name person2_name : string) (person1_df person2_df : DataFrame)
    (negative : bool) (tenths : Z) :
  let total := total_score (scores_of_frames (F:=F) person1_df person2_df) in
  format_1f (total * of_int 100)%num = format_tenths negative tenths ->
  summary_diagnosis
    (summary_row (calculate_compatibility person1_name person1_df
                    person2_name person2_df))
  = diagnosis_stub (level_of total) negative tenths.
Proof.
  intros total Hfmt. unfold summary_row, calculate_compatibility.
  cbn [summary_diagnosis diagnosis].
  fold (scores_of_frames (F:=F) person1_df person2_df). fold total.
  unfold generate_diagnosis, diagnosis_parts. cbn [app].
  rewrite Hfmt. unfold format_tenths.
  match goal with
  | |- before_dot (join " " (?h :: ?ps)) = _ =>
      destruct (join_head h ps) as [tail ->]
  end.
  rewrite <- (before_dot_app (diagnosis_stub (level_of total) negative tenths)
                (nat_str (Z.to_nat (tenths mod 10)) +:+ "%)" +:+ tail)
                (diagnosis_stub_no_dot _ _ _)).
  f_equal. unfold diagnosis_stub. rewrite !sapp_assoc. reflexivity.
Qed.

(** X16: the [Diagnosis] column of the summary is the diagnosis cut at its
    first full stop, which is the decimal point of the percentage: the
    column holds the glyph, the level, [COMPATIBILITY (] and the integer
    part of the percentage, whenever the percentage is zero or finite. *)
Theorem summary_diagnosis_cut_at_decimal_point
    (person1_name person2_name : string) (person1_df person2_df : DataFrame) :
  (let total := total_score (scores_of_frames (F:=R) person1_df person2_df) in
   let pct := (total * 100)%R in
   summary_diagnosis
     (summary_row (calculate_compatibility (F:=R) person1_name person1_df
                     person2_name person2_df))
   = diagnosis_stub (level_of total) (R_ltb pct 0) (R_nearest_even (Rabs pct * 10)))
  /\ (let total := total_score (scores_of_frames (F:=float) person1_df person2_df) in
      (forall s m e,
         Prim2SF (PrimFloat.mul total (of_int 100)) = S754_finite s m e ->
         summary_diagnosis
           (summary_row (calculate_compatibility (F:=float) person1_name person1_df
                           person2_name person2_df))
         = diagnosis_stub (level_of total) s (scaled_round m e 1))
      /\ (forall s,
            Prim2SF (PrimFloat.mul total (of_int 100)) = S754_zero s ->
            summary_diagnosis
              (summary_row (calculate_compatibility (F:=float) person1_name person1_df
                              person2_name person2_df))
            = diagnosis_stub (level_of total) s 0)).
Proof.
  split; [|split].
  - apply (summary_diagnosis_stub (num:=real_number)). reflexivity.
  - intros s m e Hfin.
    apply (summary_diagnosis_stub (num:=float_number)).
    cbn [format_1f float_number num_mul]. unfold float_format_1f.
    rewrite Hfin. reflexivity.
  - intros s Hzero.
    apply (summary_diagnosis_stub (num:=float_number)).
    cbn [format_1f float_number num_mul]. unfold float_format_1f.
    rewrite Hzero. reflexivity.
Qed.

Lemma summary_diagnosis_cut_at_decimal_point_witness :
  summary_diagnosis
    (summary_row (calculate_compatibility (F:=float) "ann" [] "bob" []))
  = "😅 MINIMAL COMPATIBILITY (3".
Proof.
  eapply eq_trans.
  - apply (proj1 (proj2 (summary_diagnosis_cut_at_decimal_point "ann" "bob" [] []))).
    vm_compute. reflexivity.
  - vm_compute. reflexivity.
Defined.

(* --------------------------------------------------------------------- *)
(** ** Sorting a sorted list *)

Section SortFixed.
Context {A K : Type} (key : A -> K) (lt : K -> K -> bool).

Lemma sort_by_ascending_fixed (l : list A) :
  ascending key lt l -> sort_by key lt l = l.
Proof.
  unfold ascending. induction 1 as [|x l Hs IH Hall]; [reflexivity|].
  simpl. rewrite IH. destruct l as [|y l]; [reflexivity|].
  simpl. apply Forall_cons in Hall as [Hy _]. rewrite Hy. reflexivity.
Qed.

Lemma descending_rev (l : list A) : descending key lt l -> ascending key lt (rev l).
Proof.
  unfold ascending, descending. induction 1 as [|x l Hs IH Hall]; simpl.
  - constructor.
  - apply StronglySorted_app. split; [|split; [exact IH | repeat constructor]].
    intros a b Ha Hb. apply list_elem_of_In, in_rev in Ha.
    apply list_elem_of_In in Hb. destruct Hb as [<-|[]].
    rewrite Forall_forall in Hall. apply Hall, list_elem_of_In, Ha.
Qed.

Lemma list_sort_descending_fixed (l : list A) :
  descending key lt l -> list_sort key lt true l = l.
Proof.
  intros Hd. unfold list_sort.
  rewrite (sort_by_ascending_fixed _ (descending_rev _ Hd)).
  apply rev_involutive.
Qed.

End SortFixed.

(** X17: [save_results] leaves a list that is already in descending order of
    score as it is, so saving twice gives the same list as saving once
    (in binary64 for scores that are numbers, in exact arithmetic always). *)
Theorem save_results_idempotent :
  (forall results : list (PairResult float),
     (descending compatibility_score PrimFloat.ltb results ->
        save_results results = results)
     /\ (Forall (fun r => is_number (compatibility_score r)) results ->
           save_results (save_results results) = save_results results))
  /\ (forall results : list (PairResult R),
        (descending compatibility_score R_ltb results ->
           save_results results = results)
        /\ save_results (save_results results) = save_results results).
Proof.
  split; intros results; split.
  - apply list_sort_descending_fixed.
  - intros Hok. apply list_sort_descending_fixed.
    apply (list_sort_descending compatibility_score PrimFloat.ltb is_number
             float_lt_asym float_le_trans results Hok).
  - apply list_sort_descending_fixed.
  - apply list_sort_descending_fixed.
    apply (list_sort_descending compatibility_score R_ltb (fun _ => True)
             R_lt_asym R_le_trans results).
    apply Forall_forall. auto.
Qed.

Lemma save_results_idempotent_witness :
  let ab := calculate_compatibility (F:=float) "ann" [] "bob" [] in
  let ac := calculate_compatibility (F:=float) "ann" five_finished "cat" five_finished in
  save_results (save_results [ab; ac]) = save_results [ab; ac].
Proof.
  intros ab ac. apply (proj1 save_results_idempotent [ab; ac]).
  repeat constructor; vm_compute; reflexivity.
Defined.

(* ===================================================================== *)
(** * Properties of the batch run *)

Example person_name_ex :
  person_name "Tracked_Books_-_Ann_Lee" = "Ann Lee"
  /\ person_name "Ann_Lee" = "Ann Lee"
  /\ person_name "Tracked_Books_-_" = "Tracked_Books_-_"
  /\ str_replace "aa" "b" "aaa" = "ba".
Proof. repeat split; reflexivity. Qed.

Lemma replace_underscore_no_underscore s :
  no_underscore (str_replace "_" " " s) = true.
Proof.
  unfold str_replace, no_underscore. induction s as [|c s IH]; [reflexivity|].
  cbn [replace_from String.prefix String.length Nat.sub].
  destruct (ascii_dec "_" c) as [<-|Hc].
  - replace (String.prefix "" s) with true by (destruct s; reflexivity).
    rewrite app_cons, app_empty. simpl. exact IH.
  - simpl. rewrite IH.
    destruct (Ascii.eqb_spec c "_") as [->|]; [congruence | reflexivity].
Qed.

Lemma lstrip_no_underscore s : no_underscore s = true -> no_underscore (lstrip s) = true.
Proof.
  unfold no_underscore. induction s as [|c s IH]; [reflexivity|].
  intros Hs. simpl. destruct (is_space c); [|exact Hs].
  simpl in Hs. apply andb_true_iff in Hs as [_ Hs]. exact (IH Hs).
Qed.

Lemma rstrip_no_underscore s : no_underscore s = true -> no_underscore (rstrip s) = true.
Proof.
  unfold no_underscore. induction s as [|c s IH]; [reflexivity|].
  simpl. intros [Hc Hs]%andb_true_iff. specialize (IH Hs).
  destruct (rstrip s) as [|d r].
  - destruct (is_space c); [reflexivity|]. simpl. rewrite Hc. reflexivity.
  - simpl in *. rewrite Hc. exact IH.
Qed.

Lemma derived_name_shape stem :
  no_underscore (derived_name stem) = true
  /\ lstrip (derived_name stem) = derived_name stem
  /\ rstrip (derived_name stem) = derived_name stem.
Proof.
  unfold derived_name. split; [|split].
  - unfold strip. apply rstrip_no_underscore, lstrip_no_underscore,
      replace_underscore_no_underscore.
  - apply lstrip_strip.
  - apply rstrip_idem.
Qed.

Lemma person_name_cases stem :
  person_name stem = if String.eqb (derived_name stem) "" then stem else derived_name stem.
Proof. reflexivity. Qed.

Lemma prefix_app (a s : string) : String.prefix a (a +:+ s) = true.
Proof.
  induction a as [|c a IH]; [destruct s; reflexivity|].
  rewrite app_cons. simpl. destruct (ascii_dec c c); [exact IH | congruence].
Qed.

Lemma replace_from_skip (a old new s : string) :
  replace_from (String.length a) old new (a +:+ s) = replace_from 0 old new s.
Proof.
  induction a as [|c a IH]; [reflexivity|].
  rewrite app_cons. simpl. exact IH.
Qed.

Lemma str_replace_leading (c : ascii) (old' new s : string) :
  str_replace (String c old') new (String c old' +:+ s)
  = new +:+ str_replace (String c old') new s.
Proof.
  unfold str_replace. rewrite app_cons.
  cbn [replace_from]. rewrite <- app_cons, prefix_app.
  cbn [String.length]. rewrite Nat.sub_1_r. cbn [Nat.pred].
  rewrite replace_from_skip. reflexivity.
Qed.

(** X18: the display name of a reading list is never empty for a non-empty
    file stem; it is either the stem itself (the fallback) or a text
    without underscores and without surrounding whitespace; and a stem with
    the prefix [Tracked_Books_-_] gets the same name as the stem without it,
    so that two such files stand for one person. *)
Theorem person_name_properties (stem rest : string) :
  (stem <> "" -> person_name stem <> "")
  /\ (person_name stem = stem
      \/ (no_underscore (person_name stem) = true
          /\ lstrip (person_name stem) = person_name stem
          /\ rstrip (person_name stem) = person_name stem))
  /\ (derived_name rest <> "" ->
        person_name ("Tracked_Books_-_" +:+ rest) = person_name rest).
Proof.
  rewrite !person_name_cases. split; [|split].
  - intros Hne. destruct (String.eqb_spec (derived_name stem) ""); assumption.
  - destruct (String.eqb_spec (derived_name stem) ""); [left; reflexivity|].
    right. apply derived_name_shape.
  - intros Hne.
    assert (Hd : derived_name ("Tracked_Books_-_" +:+ rest) = derived_name rest).
    { unfold derived_name.
      rewrite (str_replace_leading "T" "racked_Books_-_" "" rest), app_empty.
      reflexivity. }
    rewrite Hd.
    destruct (String.eqb_spec (derived_name rest) ""); [contradiction | reflexivity].
Qed.

Lemma person_name_properties_witness :
  person_name ("Tracked_Books_-_" +:+ "Ann_Lee") = person_name "Ann_Lee".
Proof.
  apply (person_name_properties "Ann_Lee" "Ann_Lee"). vm_compute. discriminate.
Defined.

(* --------------------------------------------------------------------- *)
(** ** The dictionary of loaded lists *)

Lemma keys_dict_set_in d k v : In k (keys d) -> keys (dict_set d k v) = keys d.
Proof.
  unfold keys. induction d as [|[k' v'] d IH]; [intros []|].
  simpl. destruct (String.eqb_spec k' k) as [->|Hne]; [reflexivity|].
  intros [Heq|Hin]; [congruence|]. simpl. rewrite (IH Hin). reflexivity.
Qed.

Lemma keys_dict_set_new d k v : ~ In k (keys d) -> keys (dict_set d k v) = keys d ++ [k].
Proof.
  unfold keys. induction d as [|[k' v'] d IH]; [reflexivity|].
  simpl. intros Hnot. destruct (String.eqb_spec k' k) as [->|Hne]; [tauto|].
  simpl. rewrite IH; [reflexivity | tauto].
Qed.

Lemma keys_dict_set_cases d k v :
  (In k (keys d) /\ keys (dict_set d k v) = keys d)
  \/ (~ In k (keys d) /\ keys (dict_set d k v) = keys d ++ [k]).
Proof.
  destruct (in_dec string_dec k (keys d)) as [Hin|Hnot].
  - left. split; [exact Hin | apply keys_dict_set_in, Hin].
  - right. split; [exact Hnot | apply keys_dict_set_new, Hnot].
Qed.

Lemma dict_get_set_same d k v : dict_get (dict_set d k v) k = Some v.
Proof.
  induction d as [|[k' v'] d IH]; simpl.
  - rewrite String.eqb_refl. reflexivity.
  - destruct (String.eqb_spec k' k) as [->|Hne]; simpl.
    + rewrite String.eqb_refl. reflexivity.
    + destruct (String.eqb_spec k' k); [contradiction | exact IH].
Qed.

Lemma dict_get_in d k v : NoDup (keys d) -> In (k, v) d -> dict_get d k = Some v.
Proof.
  unfold keys. induction d as [|[k' v'] d IH]; [intros _ []|].
  simpl. intros Hnd [Heq|Hin].
  - inversion Heq; subst. rewrite String.eqb_refl. reflexivity.
  - apply NoDup_cons in Hnd as [Hnot Hnd].
    destruct (String.eqb_spec k' k) as [->|Hne]; [|exact (IH Hnd Hin)].
    exfalso. apply Hnot, list_elem_of_In, in_map_iff. exists (k, v). auto.
Qed.

Lemma load_people_snoc files f :
  load_people (files ++ [f]) = load_file (load_people files) f.
Proof. unfold load_people. rewrite fold_left_app. reflexivity. Qed.

Lemma load_people_keys files :
  NoDup (keys (load_people files))
  /\ length (load_people files) <= length files
  /\ forall name,
       In name (keys (load_people files))
       <-> exists f, In f files /\ frame f <> None /\ person_name (stem f) = name.
Proof.
  induction files as [|f files (Hnd & Hlen & Hkeys)] using rev_ind.
  - split; [constructor|]. split; [reflexivity|].
    intros name. split; [intros [] | intros (f & [] & _)].
  - rewrite load_people_snoc, length_app. unfold load_file. simpl.
    destruct (frame f) as [df|] eqn:Hframe.
    + destruct (keys_dict_set_cases (load_people files) (person_name (stem f)) df)
        as [[Hin Heq]|[Hnot Heq]].
      * assert (Hsame : length (dict_set (load_people files) (person_name (stem f)) df)
                        = length (load_people files)).
        { rewrite <- (length_map fst), <- (length_map fst (load_people files)).
          fold (keys (dict_set (load_people files) (person_name (stem f)) df)).
          rewrite Heq. reflexivity. }
        rewrite Heq, Hsame. split; [exact Hnd|]. split; [lia|].
        intros name. rewrite Hkeys. split.
        -- intros (g & Hg & Hgf & Hgn). exists g. rewrite in_app_iff. auto.
        -- intros (g & Hg & Hgf & Hgn). apply in_app_iff in Hg as [Hg|[<-|[]]].
           ++ exists g. auto.
           ++ apply Hkeys. rewrite <- Hgn. exact Hin.
      * assert (Hmore : length (dict_set (load_people files) (person_name (stem f)) df)
                        = S (length (load_people files))).
        { rewrite <- (length_map fst), <- (length_map fst (load_people files)).
          fold (keys (dict_set (load_people files) (person_name (stem f)) df)).
          rewrite Heq, length_app. unfold keys. simpl. lia. }
        rewrite Heq, Hmore. split.
        -- apply NoDup_app. split; [exact Hnd|]. split.
           ++ intros x Hx [<-|[]]%list_elem_of_In. apply Hnot, list_elem_of_In, Hx.
           ++ repeat constructor. intros []%list_elem_of_In.
        -- split; [lia|]. intros name. rewrite in_app_iff, Hkeys. split.
           ++ intros [(g & Hg & Hgf & Hgn)|[<-|[]]].
              ** exists g. rewrite in_app_iff. auto.
              ** exists f. rewrite in_app_iff. split; [right; left; reflexivity|].
                 split; [congruence | reflexivity].
           ++ intros (g & Hg & Hgf & Hgn). apply in_app_iff in Hg as [Hg|[<-|[]]].
              ** left. exists g. auto.
              ** right. left. exact Hgn.
    + split; [exact Hnd|]. split; [lia|].
      intros name. rewrite Hkeys. split.
      * intros (g & Hg & Hgf & Hgn). exists g. rewrite in_app_iff. auto.
      * intros (g & Hg & Hgf & Hgn). apply in_app_iff in Hg as [Hg|[<-|[]]].
        -- exists g. auto.
        -- congruence.
Qed.

(** X19: when two files give the same display name, the later file's data
    replace the earlier one's and the name keeps its place in the order of
    loading; a file that cannot be read changes nothing. *)
Theorem later_file_replaces_earlier (files : list CsvFile) (f : CsvFile) :
  (forall df, frame f = Some df ->
     dict_get (load_people (files ++ [f])) (person_name (stem f)) = Some df
     /\ (In (person_name (stem f)) (keys (load_people files)) ->
           keys (load_people (files ++ [f])) = keys (load_people files))
     /\ (~ In (person_name (stem f)) (keys (load_people files)) ->
           keys (load_people (files ++ [f]))
           = keys (load_people files) ++ [person_name (stem f)]))
  /\ (frame f = None -> load_people (files ++ [f]) = load_people files).
Proof.
  rewrite load_people_snoc. unfold load_file. split.
  - intros df ->. split; [apply dict_get_set_same|].
    split; [apply keys_dict_set_in | apply keys_dict_set_new].
  - intros ->. reflexivity.
Qed.

Lemma later_file_replaces_earlier_witness :
  let old := mkCsvFile "Tracked_Books_-_Ann" (Some (Columns (shelf "finished" 2))) in
  let bob := mkCsvFile "Bob" (Some (Columns [])) in
  let new := mkCsvFile "Ann" (Some (Columns five_finished)) in
  dict_get (load_people ([old; bob] ++ [new])) (person_name (stem new))
  = Some (Columns five_finished).
Proof.
  intros old bob new.
  apply (later_file_replaces_earlier [old; bob] new). reflexivity.
Defined.

Example later_file_replaces_earlier_ex :
  keys (load_people [mkCsvFile "Tracked_Books_-_Ann"
                                 (Some (Columns (shelf "finished" 2)));
                     mkCsvFile "Bob" (Some MissingColumn);
                     mkCsvFile "Cat" None;
                     mkCsvFile "Ann" (Some (Columns five_finished))])
  = ["Ann"; "Bob"].
Proof. reflexivity. Qed.

(* --------------------------------------------------------------------- *)
(** ** The pairs *)

Lemma combinations2_length {A} (l : list A) :
  length (combinations2 l) * 2 = length l * (length l - 1).
Proof.
  induction l as [|x l IH]; [reflexivity|].
  simpl. rewrite length_app, length_map. nia.
Qed.

Lemma combinations2_map {A B} (f : A -> B) (l : list A) :
  combinations2 (map f l) = map (fun '(a, b) => (f a, f b)) (combinations2 l).
Proof.
  induction l as [|x l IH]; [reflexivity|].
  simpl. rewrite map_app, !map_map, IH. reflexivity.
Qed.

Lemma combinations2_elems {A} (l : list A) (a b : A) :
  In (a, b) (combinations2 l) -> In a l /\ In b l.
Proof.
  induction l as [|x l IH]; [intros []|].
  simpl. rewrite in_app_iff, in_map_iff.
  intros [(y & Heq & Hy)|Hin].
  - inversion Heq; subst. auto.
  - destruct (IH Hin). auto.
Qed.

Lemma combinations2_ne {A} (l : list A) (a b : A) :
  NoDup l -> In (a, b) (combinations2 l) -> a <> b.
Proof.
  induction 1 as [|x l Hx Hnd IH]; [intros []|].
  simpl. rewrite in_app_iff, in_map_iff.
  intros [(y & Heq & Hy)|Hin]; [|exact (IH Hin)].
  inversion Heq; subst. intros ->. apply Hx, list_elem_of_In, Hy.
Qed.

Lemma combinations2_asym {A} (l : list A) (a b : A) :
  NoDup l -> In (a, b) (combinations2 l) -> ~ In (b, a) (combinations2 l).
Proof.
  induction 1 as [|x l Hx Hnd IH]; [intros []|].
  simpl. rewrite !in_app_iff, !in_map_iff.
  intros [(y & Heq & Hy)|Hin] [(z & Heq' & Hz)|Hin'].
  - inversion Heq; inversion Heq'; subst. apply Hx, list_elem_of_In, Hy.
  - inversion Heq; subst. apply combinations2_elems in Hin' as [_ Hin'].
    apply Hx, list_elem_of_In, Hin'.
  - inversion Heq'; subst. apply combinations2_elems in Hin as [_ Hin].
    apply Hx, list_elem_of_In, Hin.
  - exact (IH Hin Hin').
Qed.

Lemma combinations2_total {A} (l : list A) (a b : A) :
  In a l -> In b l -> a <> b ->
  In (a, b) (combinations2 l) \/ In (b, a) (combinations2 l).
Proof.
  induction l as [|x l IH]; [intros []|].
  simpl. rewrite !in_app_iff, !in_map_iff.
  intros [->|Ha] [->|Hb] Hne.
  - congruence.
  - left. left. exists b. auto.
  - right. left. exists a. auto.
  - destruct (IH Ha Hb Hne); auto.
Qed.

Lemma combinations2_NoDup {A} (l : list A) : NoDup l -> NoDup (combinations2 l).
Proof.
  induction 1 as [|x l Hx Hnd IH]; [constructor|].
  simpl. apply NoDup_app. split; [|split; [|exact IH]].
  - apply NoDup_fmap_2; [|exact Hnd]. intros a b Heq. inversion Heq. reflexivity.
  - intros [a b] Hin Hin'. apply list_elem_of_In, in_map_iff in Hin as (y & Heq & _).
    inversion Heq; subst.
    apply list_elem_of_In, combinations2_elems in Hin' as [Hin' _].
    apply Hx, list_elem_of_In, Hin'.
Qed.

Lemma fold_pair_step {F} {num : Number F}
    (pairs : list ((string * Table) * (string * Table)))
    (results : list (PairResult F)) :
  fold_left pair_step pairs results = results ++ fold_left pair_step pairs [].
Proof.
  revert results.
  induction pairs as [|[[p1 t1] [p2 t2]] pairs IH]; intros results;
    cbn [fold_left].
  - rewrite app_nil_r. reflexivity.
  - rewrite IH, (IH (pair_step [] _)). unfold pair_step.
    destruct (try_calculate_compatibility p1 t1 p2 t2); cbn [app].
    + rewrite <- app_assoc. reflexivity.
    + reflexivity.
Qed.

Lemma pair_step_columns {F} {num : Number F} (name : string) (rows : DataFrame)
    (d : list (string * Table)) :
  fold_left pair_step (map (pair (name, Columns rows)) d) []
  = map (score_entries (F:=F)) (map (pair (name, Columns rows)) (scorable d)).
Proof.
  induction d as [|[m t] d IH]; [reflexivity|].
  cbn [map fold_left]. rewrite fold_pair_step, IH.
  unfold scorable. cbn [List.filter snd].
  destruct t; reflexivity.
Qed.

Lemma pair_step_missing {F} {num : Number F} (name : string)
    (d : list (string * Table)) (results : list (PairResult F)) :
  fold_left pair_step (map (pair (name, MissingColumn)) d) results = results.
Proof.
  induction d as [|[m t] d IH]; [reflexivity|].
  cbn [map fold_left]. exact IH.
Qed.

Lemma pair_results_scorable {F} {num : Number F} (d : list (string * Table)) :
  pair_results (F:=F) d = map score_entries (combinations2 (scorable d)).
Proof.
  unfold pair_results. induction d as [|[name t] d IH]; [reflexivity|].
  cbn [combinations2]. rewrite fold_left_app, fold_pair_step, IH.
  destruct t as [rows|].
  - rewrite pair_step_columns. unfold scorable. cbn [List.filter snd has_columns].
    cbn [combinations2]. rewrite map_app. reflexivity.
  - rewrite pair_step_missing. reflexivity.
Qed.

Lemma scorable_in (d : list (string * Table)) (k : string) (t : Table) :
  In (k, t) (scorable d) <-> In (k, t) d /\ has_columns t = true.
Proof. unfold scorable. rewrite filter_In. reflexivity. Qed.

Lemma keys_scorable_in (d : list (string * Table)) (k : string) :
  In k (keys (scorable d)) -> In k (keys d).
Proof.
  unfold keys. rewrite !in_map_iff.
  intros ([k' t] & <- & Hin). apply scorable_in in Hin as [Hin _].
  exists (k', t). auto.
Qed.

Lemma keys_scorable_NoDup (d : list (string * Table)) :
  NoDup (keys d) -> NoDup (keys (scorable d)).
Proof.
  unfold keys. induction d as [|[k t] d IH]; [intros _; constructor|].
  cbn [map fst]. intros [Hnot Hnd]%NoDup_cons.
  unfold scorable. cbn [List.filter snd].
  destruct (has_columns t); [|exact (IH Hnd)].
  cbn [map fst]. apply NoDup_cons. split; [|exact (IH Hnd)].
  intros Hin%list_elem_of_In%keys_scorable_in. apply Hnot, list_elem_of_In, Hin.
Qed.

Lemma combinations2_keys_scorable (d : list (string * Table)) (a b : string) :
  In (a, b) (combinations2 (keys (scorable d))) ->
  In (a, b) (combinations2 (keys d)).
Proof.
  unfold keys. induction d as [|[k t] d IH]; [intros []|].
  unfold scorable. cbn [List.filter snd]. fold (scorable d).
  cbn [map fst combinations2]. rewrite in_app_iff.
  destruct (has_columns t).
  - cbn [map fst combinations2]. rewrite in_app_iff, !in_map_iff.
    intros [(y & Heq & Hy)|Hin]; [|right; exact (IH Hin)].
    left. exists y. split; [exact Heq|]. exact (keys_scorable_in d y Hy).
  - intros Hin. right. exact (IH Hin).
Qed.

Lemma scorable_length (d : list (string * Table)) :
  length (scorable d) <= length d.
Proof. apply List.filter_length_le. Qed.

Lemma scorable_all (d : list (string * Table)) :
  (forall name df, In (name, df) d -> has_columns df = true) -> scorable d = d.
Proof.
  induction d as [|[k t] d IH]; [reflexivity|].
  intros Hall. unfold scorable. cbn [List.filter snd].
  rewrite (Hall k t (or_introl eq_refl)).
  f_equal. apply IH. intros name df Hin. apply (Hall name df). right. exact Hin.
Qed.

Lemma dict_get_In (d : list (string * Table)) (k : string) (v : Table) :
  dict_get d k = Some v -> In (k, v) d.
Proof.
  induction d as [|[k' v'] d IH]; [discriminate|].
  simpl. destruct (String.eqb_spec k' k) as [->|Hne].
  - intros [= ->]. left. reflexivity.
  - intros Hget. right. exact (IH Hget).
Qed.

Lemma pair_results_names {F} {num : Number F} (d : list (string * Table)) :
  map (fun r => (person1 r, person2 r)) (pair_results (F:=F) d)
  = combinations2 (keys (scorable d)).
Proof.
  rewrite pair_results_scorable. unfold keys.
  rewrite combinations2_map, map_map.
  apply map_ext. intros [[a da] [b db]]. reflexivity.
Qed.

Lemma pair_results_length {F} {num : Number F} (d : list (string * Table)) :
  length (pair_results (F:=F) d) * 2
  = length (scorable d) * (length (scorable d) - 1).
Proof. rewrite pair_results_scorable, length_map. apply combinations2_length. Qed.

(** X20: with fewer than two files nothing is computed and [self.results]
    is left alone.  Otherwise one result is appended for every pair of
    display names whose tables both have the columns Title, Author and
    Status, k(k-1)/2 results for k such names; a pair with a table that
    lacks a column is skipped.  The names are those of the files that could
    be read, each counted once; when every table has its columns, k is the
    number of names. *)
Theorem process_all_files_count {F} {num : Number F}
    (self_results : list (PairResult F)) (csv_files : list CsvFile) :
  let people_data := load_people csv_files in
  let n := length people_data in
  let k := length (scorable people_data) in
  (length csv_files < 2 -> process_all_files self_results csv_files = None)
  /\ (2 <= length csv_files ->
        exists new,
          process_all_files self_results csv_files = Some (self_results ++ new)
          /\ length new * 2 = k * (k - 1))
  /\ k <= n
  /\ n <= length csv_files
  /\ ((forall name df, In (name, df) people_data -> has_columns df = true) ->
        k = n)
  /\ (forall name,
        In name (keys (scorable people_data))
        <-> exists rows, dict_get people_data name = Some (Columns rows))
  /\ NoDup (keys people_data)
  /\ (forall name,
        In name (keys people_data)
        <-> exists f, In f csv_files /\ frame f <> None
                      /\ person_name (stem f) = name).
Proof.
  intros people_data n k. unfold process_all_files.
  destruct (load_people_keys csv_files) as (Hnd & Hlen & Hkeys).
  fold people_data in Hnd.
  split; [|split; [|split; [apply scorable_length|split; [exact Hlen|]]]].
  - intros Hfew. apply Nat.ltb_lt in Hfew. rewrite Hfew. reflexivity.
  - intros Hmany. apply Nat.ltb_ge in Hmany. rewrite Hmany.
    exists (pair_results people_data). split.
    + rewrite fold_pair_step. reflexivity.
    + apply pair_results_length.
  - split; [|split; [|split; [exact Hnd | exact Hkeys]]].
    + intros Hall. unfold k, n. rewrite (scorable_all _ Hall). reflexivity.
    + intros name. unfold keys. rewrite in_map_iff. split.
      * intros ([name' t] & <- & [Hin Hcols]%scorable_in).
        destruct t as [rows|]; [|discriminate].
        exists rows. exact (dict_get_in _ _ _ Hnd Hin).
      * intros [rows Hget%dict_get_In].
        exists (name, Columns rows). split; [reflexivity|].
        apply scorable_in. split; [exact Hget | reflexivity].
Qed.

Lemma process_all_files_count_witness :
  let files := [mkCsvFile "Ann" (Some (Columns five_finished));
                mkCsvFile "Bob" (Some MissingColumn);
                mkCsvFile "Cat" (Some (Columns []))] in
  exists new,
    process_all_files (F:=float) [] files = Some ([] ++ new)
    /\ length new * 2 = 2 * (2 - 1).
Proof.
  intros files.
  apply (process_all_files_count (F:=float) [] files).
  simpl. lia.
Defined.

(** X21: every result of a batch compares two different display names, the
    first loaded before the second, with the rows last loaded under those
    names; every two different names whose tables have their columns are
    compared exactly once, in one direction only; a name whose table lacks
    a column appears in no result. *)
Theorem pair_results_cover_pairs {F} {num : Number F} (csv_files : list CsvFile) :
  let people_data := load_people csv_files in
  let results := pair_results (F:=F) people_data in
  (forall r, In r results ->
     person1 r <> person2 r
     /\ In (person1 r, person2 r) (combinations2 (keys people_data))
     /\ exists df1 df2,
          dict_get people_data (person1 r) = Some (Columns df1)
          /\ dict_get people_data (person2 r) = Some (Columns df2)
          /\ r = calculate_compatibility (person1 r) df1 (person2 r) df2)
  /\ (forall a b df1 df2,
        dict_get people_data a = Some (Columns df1) ->
        dict_get people_data b = Some (Columns df2) ->
        a <> b ->
        exists r, In r results
                  /\ ((person1 r = a /\ person2 r = b)
                      \/ (person1 r = b /\ person2 r = a)))
  /\ (forall a r,
        dict_get people_data a = Some MissingColumn -> In r results ->
        person1 r <> a /\ person2 r <> a)
  /\ NoDup (map (fun r => (person1 r, person2 r)) results)
  /\ (forall r r', In r results -> In r' results ->
        ~ (person1 r' = person2 r /\ person2 r' = person1 r)).
Proof.
  intros people_data results.
  destruct (load_people_keys csv_files) as (Hnd & _ & _).
  fold people_data in Hnd.
  pose proof (keys_scorable_NoDup people_data Hnd) as Hnd'.
  pose proof (pair_results_names (F:=F) people_data) as Hnames.
  fold results in Hnames.
  assert (Hpair : forall r, In r results ->
                    In (person1 r, person2 r)
                       (combinations2 (keys (scorable people_data)))).
  { intros r Hr. rewrite <- Hnames.
    apply in_map_iff. exists r. auto. }
  assert (Hrows : forall r, In r results ->
            exists df1 df2,
              dict_get people_data (person1 r) = Some (Columns df1)
              /\ dict_get people_data (person2 r) = Some (Columns df2)
              /\ r = calculate_compatibility (person1 r) df1 (person2 r) df2).
  { intros r Hr. unfold results in Hr. rewrite pair_results_scorable in Hr.
    apply in_map_iff in Hr as ([[a da] [b db]] & <- & Hin).
    apply combinations2_elems in Hin as [Ha Hb].
    apply scorable_in in Ha as [Ha Hca]. apply scorable_in in Hb as [Hb Hcb].
    destruct da as [rows1|]; [|discriminate].
    destruct db as [rows2|]; [|discriminate].
    exists rows1, rows2. cbn [score_entries rows_of person1 person2 calculate_compatibility].
    split; [exact (dict_get_in _ _ _ Hnd Ha)|].
    split; [exact (dict_get_in _ _ _ Hnd Hb) | reflexivity]. }
  split; [|split; [|split; [|split]]].
  - intros r Hr. split; [exact (combinations2_ne _ _ _ Hnd' (Hpair r Hr))|].
    split; [exact (combinations2_keys_scorable _ _ _ (Hpair r Hr)) | exact (Hrows r Hr)].
  - intros a b df1 df2 Ha%dict_get_In Hb%dict_get_In Hne.
    assert (Hin1 : In a (keys (scorable people_data))).
    { apply in_map_iff. exists (a, Columns df1). split; [reflexivity|].
      apply scorable_in. auto. }
    assert (Hin2 : In b (keys (scorable people_data))).
    { apply in_map_iff. exists (b, Columns df2). split; [reflexivity|].
      apply scorable_in. auto. }
    destruct (combinations2_total _ _ _ Hin1 Hin2 Hne) as [Hin|Hin];
      rewrite <- Hnames in Hin; apply in_map_iff in Hin as (r & Heq & Hr);
      inversion Heq; exists r; auto.
  - intros a r Hget Hr.
    destruct (Hrows r Hr) as (df1 & df2 & H1 & H2 & _).
    split; intros <-; congruence.
  - rewrite Hnames. apply combinations2_NoDup, Hnd'.
  - intros r r' Hr Hr' [H1 H2].
    apply (combinations2_asym _ _ _ Hnd' (Hpair r Hr)).
    rewrite <- H1, <- H2. exact (Hpair r' Hr').
Qed.

Lemma pair_results_cover_pairs_witness :
  let files := [mkCsvFile "Ann" (Some (Columns five_finished));
                mkCsvFile "Bob" (Some MissingColumn);
                mkCsvFile "Cat" (Some (Columns []))] in
  exists r, In r (pair_results (F:=float) (load_people files))
            /\ ((person1 r = "Ann" /\ person2 r = "Cat")
                \/ (person1 r = "Cat" /\ person2 r = "Ann")).
Proof.
  intros files.
  destruct (pair_results_cover_pairs (F:=float) files) as (_ & Hpairs & _).
  apply (Hpairs "Ann" "Cat" five_finished []).
  - reflexivity.
  - reflexivity.
  - discriminate.
Defined.

(* --------------------------------------------------------------------- *)
(** ** The script *)

Lemma main_cases {F} {num : Number F} (csv_files : list CsvFile) :
  let results := pair_results (F:=F) (load_people csv_files) in
  (length (scorable (load_people csv_files)) < 2 /\ main (F:=F) csv_files = None)
  \/ (2 <= length (scorable (load_people csv_files))
      /\ main csv_files
         = Some (save_results results, save_summary_csv (save_results results))).
Proof.
  intros results. unfold main, process_all_files.
  destruct (load_people_keys csv_files) as (_ & Hlen & _).
  pose proof (scorable_length (load_people csv_files)) as Hsub.
  pose proof (pair_results_length (F:=F) (load_people csv_files)) as Hcount.
  fold results in Hcount.
  destruct (Nat.ltb_spec (length csv_files) 2) as [Hfew|Hmany].
  - left. split; [lia | reflexivity].
  - fold (pair_results (F:=F) (load_people csv_files)). fold results.
    destruct results as [|r rs] eqn:Hres.
    + left. split; [|reflexivity]. simpl in Hcount.
      destruct (length (scorable (load_people csv_files))) as [|[|k]];
        simpl in Hcount; lia.
    + right. split; [|reflexivity]. simpl in Hcount.
      destruct (length (scorable (load_people csv_files))) as [|[|k]];
        simpl in Hcount; lia.
Qed.

Lemma StronglySorted_map {A B} (f : A -> B) (R : B -> B -> Prop) (l : list A) :
  StronglySorted (fun a b => R (f a) (f b)) l -> StronglySorted R (map f l).
Proof.
  induction 1 as [|x l Hl IH Hx]; [constructor|].
  simpl. constructor; [exact IH|].
  apply List.Forall_forall. intros y (z & <- & Hz)%in_map_iff.
  exact (proj1 (List.Forall_forall _ _) Hx z Hz).
Qed.

(** X22: the script writes its two files exactly when at least two of the
    display names loaded have a table with the columns Title, Author and
    Status; with fewer it writes nothing, however many files were read.
    The results file then holds one result for every pair of such names,
    k(k-1)/2 in all, a rearrangement of the computed results, and the
    summary has one row per result in the same order; in exact arithmetic
    both go from the highest score to the lowest. *)
Theorem main_output {F} {num : Number F} (csv_files : list CsvFile) :
  let k := length (scorable (load_people csv_files)) in
  (main (F:=F) csv_files = None <-> k < 2)
  /\ (forall sorted rows,
        main (F:=F) csv_files = Some (sorted, rows) ->
        Permutation (pair_results (load_people csv_files)) sorted
        /\ length sorted * 2 = k * (k - 1)
        /\ length rows = length sorted
        /\ map (fun row => (summary_person1 row, summary_person2 row,
                            summary_compatibility row)) rows
           = map (fun r => (person1 r, person2 r, compatibility_score r)) sorted)
  /\ (forall sorted rows,
        main (F:=R) csv_files = Some (sorted, rows) ->
        StronglySorted
          (fun a b => (compatibility_score b <= compatibility_score a)%R) sorted
        /\ StronglySorted (fun a b => (b <= a)%R) (map summary_compatibility rows)).
Proof.
  intros k. split; [|split].
  - destruct (main_cases (F:=F) csv_files) as [[Hk ->]|[Hk ->]].
    + split; [intros _; exact Hk | reflexivity].
    + split; [discriminate | intros Hlt; fold k in Hk; lia].
  - intros sorted rows Hmain.
    destruct (main_cases (F:=F) csv_files) as [[_ Hnone]|[_ Hsome]];
      [congruence|].
    rewrite Hsome in Hmain. inversion Hmain; subst sorted rows. clear Hmain.
    pose proof (list_sort_perm compatibility_score num_ltb true
                  (pair_results (F:=F) (load_people csv_files))) as Hperm.
    fold (save_results (pair_results (F:=F) (load_people csv_files))) in Hperm.
    split; [exact Hperm|]. split; [|split].
    + rewrite <- (Permutation_length Hperm). apply pair_results_length.
    + unfold save_summary_csv. apply length_map.
    + unfold save_summary_csv. rewrite map_map. reflexivity.
  - intros sorted rows Hmain.
    destruct (main_cases (F:=R) csv_files) as [[_ Hnone]|[_ Hsome]];
      [congruence|].
    rewrite Hsome in Hmain. inversion Hmain; subst sorted rows. clear Hmain.
    set (results := pair_results (F:=R) (load_people csv_files)).
    assert (Hd : descending compatibility_score R_ltb (save_results results)).
    { apply (list_sort_descending compatibility_score R_ltb (fun _ => True)
               R_lt_asym R_le_trans results).
      apply Forall_forall. auto. }
    assert (Hs : StronglySorted
                   (fun a b => (compatibility_score b <= compatibility_score a)%R)
                   (save_results results)).
    { apply (StronglySorted_weaken (fun _ => True)
               (fun a b => R_ltb (compatibility_score a) (compatibility_score b) = false));
        [|apply Forall_forall; auto | exact Hd].
      intros a b _ _. unfold R_ltb.
      destruct (Rlt_dec _ _); [discriminate|]. intros _. lra. }
    split; [exact Hs|]. unfold save_summary_csv. rewrite map_map.
    apply (StronglySorted_map compatibility_score (fun a b => (b <= a)%R)), Hs.
Qed.

Lemma main_output_witness :
  main (F:=float) [mkCsvFile "Ann" (Some (Columns five_finished));
                   mkCsvFile "Bob" (Some MissingColumn)] = None.
Proof.
  apply (main_output (F:=float)). vm_compute. lia.
Defined.

(* ===================================================================== *)
(** * Clauses of the diagnosis *)

Lemma diagnosis_has_clause {F} {num : Number F} (score : F)
    (p1 p2 shared_f shared_a cross_recs d : nat) (clause : string) :
  In clause (diagnosis_parts score p1 p2 shared_f shared_a cross_recs d) ->
  contains (generate_diagnosis score p1 p2 shared_f shared_a cross_recs d) clause.
Proof. apply contains_join. Qed.

Lemma size_clause_first (p1 p2 : nat) :
  size_clause p1 p2
    = ["Large library size difference - first reader is much more prolific."]
  <-> p2 + 20 <= p1 /\ 2 * p2 < p1.
Proof.
  unfold size_clause.
  destruct (Z.ltb_spec (Z.abs (Z.of_nat p1 - Z.of_nat p2)) 20) as [Hb|Hb]; simpl.
  - split; [discriminate|]. intros [H1 H2]. lia.
  - destruct (Nat.ltb_spec (p2 * 2) p1) as [H1|H1].
    + split; [intros _; lia | reflexivity].
    + destruct (Nat.ltb_spec (p1 * 2) p2); (split; [discriminate | lia]).
Qed.

Lemma size_clause_second (p1 p2 : nat) :
  size_clause p1 p2
    = ["Large library size difference - second reader is much more prolific."]
  <-> p1 + 20 <= p2 /\ 2 * p1 < p2.
Proof.
  unfold size_clause.
  destruct (Z.ltb_spec (Z.abs (Z.of_nat p1 - Z.of_nat p2)) 20) as [Hb|Hb]; simpl.
  - split; [discriminate|]. intros [H1 H2]. lia.
  - destruct (Nat.ltb_spec (p2 * 2) p1) as [H1|H1].
    + split; [discriminate | lia].
    + destruct (Nat.ltb_spec (p1 * 2) p2);
        (split; [first [discriminate | intros _; lia] | first [reflexivity | lia]]).
Qed.

(** X23: every diagnosis starts with the level header followed by the
    overlap clause for the number of shared finished books; with more than
    10 shared books it says "Strong overlap", with more than 5 shared
    authors "Very strong author overlap".  The remark on library sizes is
    made only when one reader finished at least 20 books more than the
    other and more than twice as many. *)
Theorem diagnosis_clauses {F} {num : Number F} (score : F)
    (p1 p2 shared_f shared_a cross_recs d : nat) :
  let text := generate_diagnosis score p1 p2 shared_f shared_a cross_recs d in
  (exists rest,
     text = level_emoji (level_of score) +:+ " " +:+ level_name (level_of score)
            +:+ " COMPATIBILITY (" +:+ format_1f (score * of_int 100)%num +:+ "%)"
            +:+ " " +:+ overlap_clause shared_f +:+ rest)
  /\ (10 < shared_f ->
        contains text ("Strong overlap with " +:+ nat_str shared_f +:+ " shared books."))
  /\ (5 < shared_a ->
        contains text ("Very strong author overlap (" +:+ nat_str shared_a +:+ " shared)."))
  /\ (p2 + 20 <= p1 /\ 2 * p2 < p1 ->
        contains text
          "Large library size difference - first reader is much more prolific.")
  /\ (p1 + 20 <= p2 /\ 2 * p1 < p2 ->
        contains text
          "Large library size difference - second reader is much more prolific.")
  /\ (size_clause p1 p2 <> [] ->
        (p2 + 20 <= p1 /\ 2 * p2 < p1) \/ (p1 + 20 <= p2 /\ 2 * p1 < p2)).
Proof.
  intros text. split; [|split; [|split; [|split; [|split]]]].
  - subst text. unfold generate_diagnosis, diagnosis_parts. cbn [app].
    match goal with
    | |- exists rest, join " " (?h :: ?o :: ?ps) = _ =>
        destruct (join_head o ps) as [tail Htail];
        exists tail; rewrite join_cons, Htail
    end.
    rewrite !sapp_assoc. reflexivity.
  - intros Hs. apply diagnosis_has_clause. unfold diagnosis_parts.
    rewrite !in_app_iff. right. left. left. unfold overlap_clause.
    apply Nat.ltb_lt in Hs. rewrite Hs. reflexivity.
  - intros Ha. apply diagnosis_has_clause. unfold diagnosis_parts.
    rewrite !in_app_iff. do 5 right. unfold author_clause.
    apply Nat.ltb_lt in Ha. rewrite Ha. left. reflexivity.
  - intros Hsize%size_clause_first. apply diagnosis_has_clause.
    unfold diagnosis_parts. rewrite !in_app_iff, Hsize. do 2 right. left. left.
    reflexivity.
  - intros Hsize%size_clause_second. apply diagnosis_has_clause.
    unfold diagnosis_parts. rewrite !in_app_iff, Hsize. do 2 right. left. left.
    reflexivity.
  - unfold size_clause.
    destruct (Z.ltb_spec (Z.abs (Z.of_nat p1 - Z.of_nat p2)) 20) as [Hb|Hb]; simpl;
      [congruence|].
    destruct (Nat.ltb_spec (p2 * 2) p1) as [H1|H1]; [intros _; left; lia|].
    destruct (Nat.ltb_spec (p1 * 2) p2) as [H2|H2]; [intros _; right; lia|].
    congruence.
Qed.

Lemma diagnosis_clauses_witness :
  contains (generate_diagnosis (F:=float) (decimal 62 2) 40 15 12 6 0 0)
    ("Strong overlap with " +:+ nat_str 12 +:+ " shared books.").
Proof.
  apply (diagnosis_clauses (F:=float) (decimal 62 2) 40 15 12 6 0 0). lia.
Defined.
